(** * SMASH: actions, channel selection, random sampling and binary output

    A shallow embedding of the parts of SMASH that the specification talks
    about: [Action] (action.h), the [Random] namespace (random.h, random.cc),
    [string_excitation] (pythia.cc) and [BinaryOutputCollisions]
    (binaryoutput.cc).

    C++ [float] is IEEE binary32 and [double] is IEEE binary64; both are
    modelled with the executable [spec_float] operations of the standard
    library, instantiated at the two formats. *)

From Stdlib Require Import ZArith List Bool String Ascii Lia.
From Stdlib Require Import Floats.SpecFloat.
Import ListNotations.

Local Open Scope Z_scope.

(** ** Floating point formats *)

(** C++ [float]. *)
Module F32.
Definition prec : Z := 24.
Definition emax : Z := 128.
Definition t : Type := spec_float.
Definition zero : t := S754_zero false.
Definition nan : t := S754_nan.
Definition add : t -> t -> t := SFadd prec emax.
Definition sub : t -> t -> t := SFsub prec emax.
Definition mul : t -> t -> t := SFmul prec emax.
Definition div : t -> t -> t := SFdiv prec emax.
Definition ltb : t -> t -> bool := SFltb.
Definition leb : t -> t -> bool := SFleb.
(** [x > y] is [y < x]. *)
Definition gtb (x y : t) : bool := SFltb y x.
(** The float with value [m * 2^e]. *)
Definition of_Z2 (m e : Z) : t := binary_normalize prec emax m e false.
Definition of_Z (m : Z) : t := of_Z2 m 0.
(** The float nearest to the fraction [n / d]. *)
Definition of_frac (n d : Z) : t := div (of_Z n) (of_Z d).
End F32.

(** C++ [double]. *)
Module F64.
Definition prec : Z := 53.
Definition emax : Z := 1024.
Definition t : Type := spec_float.
Definition zero : t := S754_zero false.
Definition nan : t := S754_nan.
Definition add : t -> t -> t := SFadd prec emax.
Definition sub : t -> t -> t := SFsub prec emax.
Definition mul : t -> t -> t := SFmul prec emax.
Definition div : t -> t -> t := SFdiv prec emax.
Definition sqrt : t -> t := SFsqrt prec emax.
Definition ltb : t -> t -> bool := SFltb.
Definition leb : t -> t -> bool := SFleb.
Definition gtb (x y : t) : bool := SFltb y x.
Definition geb (x y : t) : bool := SFleb y x.
Definition of_Z2 (m e : Z) : t := binary_normalize prec emax m e false.
Definition of_Z (m : Z) : t := of_Z2 m 0.
Definition of_frac (n d : Z) : t := div (of_Z n) (of_Z d).
End F64.

Definition is_nan (x : spec_float) : bool :=
  match x with S754_nan => true | _ => false end.

(** The place of a float that is not a NaN in the order [SFcompare]
    decides: a class (the two infinities, the negative and the positive
    finite numbers, the zeros), then the exponent, then the mantissa, the
    last two negated for a negative number.  Triples are compared
    lexicographically. *)
Definition order_key (x : spec_float) : Z * Z * Z :=
  match x with
  | S754_nan => (0, 0, 0)
  | S754_infinity true => (-2, 0, 0)
  | S754_infinity false => (2, 0, 0)
  | S754_zero _ => (0, 0, 0)
  | S754_finite true m e => (-1, - e, - Zpos m)
  | S754_finite false m e => (1, e, Zpos m)
  end.

Definition lex_lt (a b : Z * Z * Z) : Prop :=
  let '(a1, a2, a3) := a in
  let '(b1, b2, b3) := b in
  a1 < b1 \/ (a1 = b1 /\ (a2 < b2 \/ (a2 = b2 /\ a3 < b3))).

(** ** The shared random engine

    [Random::engine] is one process-wide [std::ranlux48]; the distributions
    of the standard library are deterministic functions of its state.  The
    engine and the distributions belong to the C++ standard library, so they
    are an interface here: a state type, the state a seed produces, and one
    state transformer per distribution the sources call. *)
Class RandomEngine : Type := {
  Engine : Type;
  Seed : Type;
  (** [engine.seed(seed)] *)
  engine_seed : Seed -> Engine;
  (** [std::uniform_real_distribution<float>(min, max)(engine)] *)
  uniform_float : F32.t -> F32.t -> Engine -> F32.t * Engine;
  (** [std::uniform_real_distribution<double>(min, max)(engine)] *)
  uniform_double : F64.t -> F64.t -> Engine -> F64.t * Engine;
  (** [std::generate_canonical<double, 53>(engine)] *)
  generate_canonical : Engine -> F64.t * Engine;
  (** [std::normal_distribution<double>(mean, sigma)(engine)] *)
  normal_distribution : F64.t -> F64.t -> Engine -> F64.t * Engine;
  (** [std::discrete_distribution<int>] over a weight table *)
  discrete_distribution : list F64.t -> Engine -> Z * Engine
}.

Module Random.
Section WithEngine.
Context {RE : RandomEngine}.

  (** [Random::set_seed]: the engine is overwritten by the seeded state. *)
Definition set_seed (seed : Seed) (engine : Engine) : Engine :=
    engine_seed seed.

  (** [Random::uniform<float>] *)
Definition uniform (min max : F32.t) (engine : Engine) : F32.t * Engine :=
    uniform_float min max engine.

  (** [Random::uniform<double>] *)
Definition uniform_d (min max : F64.t) (engine : Engine) : F64.t * Engine :=
    uniform_double min max engine.

  (** [Random::canonical<double>] *)
Definition canonical (engine : Engine) : F64.t * Engine :=
    generate_canonical engine.

  (** [random::normal] *)
Definition normal (mean sigma : F64.t) (engine : Engine) : F64.t * Engine :=
    normal_distribution mean sigma engine.
End WithEngine.
End Random.

(** ** Process branches *)

(** Modelled from the spec: the [ProcessType] enumeration of processbranch.h
    is not among the sources; these are the channel kinds the specification
    names (elastic, resonance formation, inelastic 2-to-2, string excitation,
    decay).  The sources only ever test for [String]. *)
Inductive ProcessType : Type :=
  | PT_None | PT_Elastic | PT_TwoToOne | PT_TwoToTwo | PT_String | PT_Decay.

Definition ProcessType_eqb (a b : ProcessType) : bool :=
  match a, b with
  | PT_None, PT_None | PT_Elastic, PT_Elastic | PT_TwoToOne, PT_TwoToOne
  | PT_TwoToTwo, PT_TwoToTwo | PT_String, PT_String | PT_Decay, PT_Decay => true
  | _, _ => false
  end.

(** What [Action] reads of a [ProcessBranch]: the outgoing species, the
    weight and the process type. *)
Record Branch : Type := {
  particle_types : list Z;
  weight : F32.t;
  get_type : ProcessType
}.

Definition particle_number (b : Branch) : nat := List.length (particle_types b).

(** ** Action *)

Module Action.

(** The pair [(subprocesses, total_weight)] that [add_process] and
    [add_processes] receive by reference. *)
Definition Channels : Type := (list Branch * F32.t)%type.

(** A freshly constructed action: no channel, total weight [0]. *)
Definition empty : Channels := ([], F32.zero).

Section Insertion.
(** [really_small] is declared in constants.h, which is not among the
    sources: it is a parameter of the two insertion functions. *)
Variable really_small : F32.t.

Definition add_process (p : Branch) (st : Channels) : Channels :=
  let '(subprocesses, total_weight) := st in
  if F32.gtb (weight p) really_small
  then (subprocesses ++ [p], F32.add total_weight (weight p))
  else (subprocesses, total_weight).

Definition add_processes (pv : list Branch) (st : Channels) : Channels :=
  let '(subprocesses, total_weight) := st in
  match subprocesses with
  | [] =>
      (pv, fold_left (fun tw proc => F32.add tw (weight proc)) pv total_weight)
  | _ :: _ =>
      (subprocesses ++ pv,
       fold_left (fun tw proc => F32.add tw (weight proc)) pv total_weight)
  end.

(** One call on an action's channel list. *)
Inductive call : Type :=
  | AddProcess (p : Branch)
  | AddProcesses (pv : list Branch).

Definition do_call (c : call) (st : Channels) : Channels :=
  match c with
  | AddProcess p => add_process p st
  | AddProcesses pv => add_processes pv st
  end.

Definition do_calls (cs : list call) (st : Channels) : Channels :=
  fold_left (fun s c => do_call c s) cs st.
End Insertion.

(** The sum of the weights of a channel list, accumulated in list order
    from [0] as the code accumulates it. *)
Definition sum_weights (l : list Branch) : F32.t :=
  fold_left (fun tw proc => F32.add tw (weight proc)) l F32.zero.

(** A channel is negligible when its weight is at or below the threshold. *)
Definition negligible (really_small : F32.t) (b : Branch) : bool :=
  F32.leb (weight b) really_small.

(** *** choose_channel *)

(** What [log.fatal] receives before the throw. *)
Record Diagnostic : Type := {
  diag_size : nat;
  diag_weight_sum : F32.t;
  diag_total_weight : F32.t;
  diag_random_weight : F32.t
}.

(** [choose_channel] returns a pointer into the list (an index and the
    branch there) or logs and throws [std::runtime_error]. *)
Inductive Choice : Type :=
  | Chosen (i : nat) (b : Branch)
  | Thrown (logged : Diagnostic) (what : string).

(** The guard at the head of the loop body: a process without a
    well-defined final state that is not a string is passed over. *)
Definition skipped (proc : Branch) : bool :=
  Nat.ltb (particle_number proc) 1
  && negb (ProcessType_eqb (get_type proc) PT_String).

(** The loop over [subprocesses], from position [i] with the running
    [weight_sum]; [inr] is the sum at the end of the list. *)
Fixpoint walk (random_weight : F32.t) (subprocesses : list Branch)
         (i : nat) (weight_sum : F32.t) : (nat * Branch) + F32.t :=
  match subprocesses with
  | [] => inr weight_sum
  | proc :: rest =>
      if skipped proc then walk random_weight rest (S i) weight_sum
      else
        let weight_sum := F32.add weight_sum (weight proc) in
        if F32.leb random_weight weight_sum then inl (i, proc)
        else walk random_weight rest (S i) weight_sum
  end.

Section Choose.
Context {RE : RandomEngine}.

Definition choose_channel (subprocesses : list Branch) (total_weight : F32.t)
           (engine : Engine) : Choice * Engine :=
  let '(random_weight, engine) := Random.uniform F32.zero total_weight engine in
  match walk random_weight subprocesses 0%nat F32.zero with
  | inl (i, proc) => (Chosen i proc, engine)
  | inr weight_sum =>
      (Thrown {| diag_size := List.length subprocesses;
                 diag_weight_sum := weight_sum;
                 diag_total_weight := total_weight;
                 diag_random_weight := random_weight |}
              "problem in choose_channel", engine)
  end.
End Choose.

(** One step of the accumulation the loop makes: a skipped channel adds
    nothing. *)
Definition accumulate (s : F32.t) (proc : Branch) : F32.t :=
  if skipped proc then s else F32.add s (weight proc).

(** The weight the loop has accumulated once it has looked at the channels
    [0..k]. *)
Definition accumulated (subprocesses : list Branch) (k : nat) : F32.t :=
  fold_left accumulate (firstn (S k) subprocesses) F32.zero.

(** The weight the loop has accumulated at the end of the list. *)
Definition accumulated_all (subprocesses : list Branch) : F32.t :=
  fold_left accumulate subprocesses F32.zero.

(** Channel [k] is looked at, and the draw is at or below the weight
    accumulated there. *)
Definition reaches (random_weight : F32.t) (subprocesses : list Branch)
         (k : nat) : Prop :=
  exists proc, nth_error subprocesses k = Some proc /\ skipped proc = false
               /\ F32.leb random_weight (accumulated subprocesses k) = true.

(** The selection as the specification words it: walk the channels
    accumulating weight; the first channel whose cumulative weight meets
    or exceeds the draw is selected. *)
Fixpoint spec_walk (random_weight : F32.t) (subprocesses : list Branch)
         (i : nat) (weight_sum : F32.t) : option nat :=
  match subprocesses with
  | [] => None
  | proc :: rest =>
      let weight_sum := F32.add weight_sum (weight proc) in
      if F32.leb random_weight weight_sum then Some i
      else spec_walk random_weight rest (S i) weight_sum
  end.

Definition spec_choose (random_weight : F32.t) (subprocesses : list Branch)
  : option nat :=
  spec_walk random_weight subprocesses 0%nat F32.zero.

(** *** Ordering *)

(** The members of [Action] and of its two derived classes that the
    ordering and the weight accessors read. *)
Record t : Type := {
  incoming_particles_ : list Z;
  time_of_execution_ : F32.t;
  process_type_ : ProcessType;
  channels_ : list Branch;
  (** [total_width_] of a [DecayAction], [total_cross_section_] of a
      [ScatterAction] *)
  total_weight_ : F32.t
}.

(** [Action::operator<] *)
Definition operator_lt (lhs rhs : t) : bool :=
  F32.ltb (time_of_execution_ lhs) (time_of_execution_ rhs).

(** The ordering as the specification words it: earlier time first, and
    at identical times the larger total weight first. *)
Definition spec_before (a b : t) : bool :=
  F32.ltb (time_of_execution_ a) (time_of_execution_ b)
  || (SFeqb (time_of_execution_ a) (time_of_execution_ b)
      && F32.gtb (total_weight_ a) (total_weight_ b)).

End Action.

(** ** Random::expo *)

(** [std::log] and [std::exp] on [double] belong to the C library; they are
    an interface, like the engine. *)
Class LibM : Type := {
  libm_log : F64.t -> F64.t;
  libm_exp : F64.t -> F64.t
}.

Module Expo.
Section WithEngine.
Context {RE : RandomEngine} {LM : LibM}.

(** [std::numeric_limits<double>::min()], the smallest normal double. *)
Definition numeric_limits_min : F64.t := F64.of_Z2 1 (-1022).

(** The value of a comparison used as an integer. *)
Definition bool_to_int (b : bool) : Z := if b then 1 else 0.

(** The condition of the [do ... while]: the loop goes on while it holds. *)
Definition again (x x1 x2 : F64.t) : bool :=
  negb (Z.eqb (bool_to_int (F64.ltb x x1) + bool_to_int (F64.ltb x x2)) 1).

(** The [do ... while] loop; [fuel] bounds the number of draws. *)
Fixpoint expo_loop (fuel : nat) (A x1 x2 r1 r2 : F64.t) (engine : Engine)
  : option (F64.t * Engine) :=
  match fuel with
  | O => None
  | S fuel =>
      let '(u, engine) := Random.uniform_d r1 r2 engine in
      let x := F64.div (libm_log u) A in
      if again x x1 x2 then expo_loop fuel A x1 x2 r1 r2 engine
      else Some (x, engine)
  end.

Definition expo (fuel : nat) (A x1 x2 : F64.t) (engine : Engine)
  : option (F64.t * Engine) :=
  let a1 := F64.mul A x1 in
  let a2 := F64.mul A x2 in
  let a_min := libm_log numeric_limits_min in
  let r1 := if F64.gtb a1 a_min then libm_exp a1 else F64.zero in
  let r2 := if F64.gtb a2 a_min then libm_exp a2 else F64.zero in
  expo_loop fuel A x1 x2 r1 r2 engine.
End WithEngine.

(** [std::min] and [std::max] on doubles. *)
Definition fmin (a b : F64.t) : F64.t := if F64.ltb b a then b else a.
Definition fmax (a b : F64.t) : F64.t := if F64.ltb a b then b else a.
End Expo.

(** ** 32-bit [int] *)

Module Int.
Definition min_value : Z := - 2 ^ 31.
Definition max_value : Z := 2 ^ 31 - 1.
Definition in_range (z : Z) : Prop := min_value <= z <= max_value.
(** The representative of [z] modulo [2^32] in the range of [int]. *)
Definition wrap (z : Z) : Z := (z + 2 ^ 31) mod 2 ^ 32 - 2 ^ 31.
Definition add (a b : Z) : Z := wrap (a + b).
Definition sub (a b : Z) : Z := wrap (a - b).
Definition mul (a b : Z) : Z := wrap (a * b).
(** [std::abs(int)] *)
Definition abs (a : Z) : Z := wrap (Z.abs a).
(** [int] to [double]: exact. *)
Definition to_double (a : Z) : F64.t := F64.of_Z a.
End Int.

(** ** random::BesselSampler *)

Module Bessel.

(** [std::round]: to the nearest integer, halfway cases away from zero;
    the integer it returns, for a finite argument. *)
Definition round_away (x : F64.t) : option Z :=
  match x with
  | S754_zero _ => Some 0
  | S754_finite s m e =>
      let v := match e with
               | Zneg p => (2 * Zpos m + 2 ^ Zpos p) / (2 * 2 ^ Zpos p)
               | _ => Zpos m * 2 ^ e
               end in
      Some (if s then - v else v)
  | _ => None
  end.

(** [std::round] followed by the conversion of its result to [int].  C++
    leaves the conversion undefined when the value is not in the range of
    [int]; [INT_MIN], which the x86-64 conversion instruction produces
    there, stands for it. *)
Definition round_to_int (x : F64.t) : Z :=
  match round_away x with
  | Some z => if (Int.min_value <=? z) && (z <=? Int.max_value) then z
              else Int.min_value
  | None => Int.min_value
  end.

Record BesselSampler : Type := {
  dist_ : list F64.t;
  m_ : F64.t;
  a_ : F64.t;
  N_ : Z;
  N_is_positive_ : bool;
  mu_ : F64.t;
  sigma_ : F64.t
}.

Definition one : F64.t := F64.of_Z 1.
Definition two : F64.t := F64.of_Z 2.
Definition half : F64.t := F64.of_Z2 1 (-1).
Definition quarter : F64.t := F64.of_Z2 1 (-2).

(** The [for] loop of [r_], [i] running from [count] down to [1]. *)
Fixpoint r_loop (count : nat) (n : Z) (a_inv res : F64.t) : F64.t :=
  match count with
  | O => res
  | S count' =>
      let i := Z.of_nat count in
      let res := F64.div one
                   (F64.add (F64.mul (F64.mul a_inv two)
                                     (Int.to_double (Int.add n i)))
                            res) in
      r_loop count' n a_inv res
  end.

(** [BesselSampler::r_]; [None] when one of its two assertions fails. *)
Definition r_ (n : Z) (a : F64.t) : option F64.t :=
  let a_inv := F64.div one a in
  let res := r_loop 200 n a_inv F64.zero in
  let n1 := Int.add n 1 in
  let lower :=
    F64.div a (F64.add (F64.add (F64.sqrt (F64.add (F64.mul a a)
                                   (Int.to_double (Int.mul n1 n1))))
                                (Int.to_double n))
                       one) in
  let upper :=
    F64.div a (F64.add (F64.sqrt (F64.add (F64.mul a a)
                                          (Int.to_double (Int.mul n n))))
                       (Int.to_double n)) in
  if F64.leb lower res then
    if F64.leb res upper then Some res else None
  else None.

Section Sampler.
Context {RE : RandomEngine}.
(** The two class constants are declared in the class definition, which is
    not among the sources: they are parameters. *)
Variable m_switch_method_ : F64.t.
Variable negligible_probability_ : F64.t.

(** The [do ... while] loop that tabulates the weights; [None] when [fuel]
    iterations were not enough.  The accumulated [sum] is only logged. *)
Fixpoint tabulate (fuel : nat) (a : F64.t) (N : Z) (i : Z) (wi : F64.t)
         (probabilities : list F64.t) : option (list F64.t) :=
  match fuel with
  | O => None
  | S fuel =>
      let probabilities := probabilities ++ [wi] in
      let wi := F64.mul wi
                  (F64.div (F64.div (F64.mul (F64.mul quarter a) a)
                                    (Int.to_double (Int.add i 1)))
                           (Int.to_double (Int.add (Int.add N i) 1))) in
      let i := Int.add i 1 in
      if F64.gtb wi negligible_probability_
      then tabulate fuel a N i wi probabilities
      else Some probabilities
  end.

(** The constructor; [None] when an assertion fails or [fuel] runs out. *)
Definition make (fuel : nat) (poisson_mean1 poisson_mean2 : F64.t)
           (fixed_difference : Z) : option BesselSampler :=
  let a := F64.mul two (F64.sqrt (F64.mul poisson_mean1 poisson_mean2)) in
  let N := Int.abs fixed_difference in
  let N_is_positive := 0 <=? fixed_difference in
  if negb (F64.geb poisson_mean1 F64.zero) then None
  else if negb (F64.geb poisson_mean2 F64.zero) then None
  else
    let m := F64.mul half
               (F64.sub (F64.sqrt (F64.add (F64.mul a a)
                                           (Int.to_double (Int.mul N N))))
                        (Int.to_double N)) in
    if F64.geb m m_switch_method_ then
      match r_ N a with
      | None => None
      | Some r0 =>
          let mu := F64.mul (F64.mul half a) r0 in
          match r_ (Int.add N 1) a with
          | None => None
          | Some r1 =>
              let mean_sqr :=
                F64.mul mu (F64.add one (F64.mul (F64.mul half a) r1)) in
              let sigma := F64.sqrt (F64.sub mean_sqr (F64.mul mu mu)) in
              Some {| dist_ := []; m_ := m; a_ := a; N_ := N;
                      N_is_positive_ := N_is_positive;
                      mu_ := mu; sigma_ := sigma |}
          end
      end
    else
      match tabulate fuel a N 0 one [] with
      | None => None
      | Some probabilities =>
          Some {| dist_ := probabilities; m_ := m; a_ := a; N_ := N;
                  N_is_positive_ := N_is_positive;
                  mu_ := F64.nan; sigma_ := F64.nan |}
      end.

(** [BesselSampler::sample] *)
Definition sample (bs : BesselSampler) (engine : Engine) : (Z * Z) * Engine :=
  let '(N_smaller, engine) :=
    if F64.geb (m_ bs) m_switch_method_
    then let '(x, engine) := Random.normal (mu_ bs) (sigma_ bs) engine in
         (round_to_int x, engine)
    else discrete_distribution (dist_ bs) engine in
  if N_is_positive_ bs
  then ((Int.add N_smaller (N_ bs), N_smaller), engine)
  else ((N_smaller, Int.add N_smaller (N_ bs)), engine).
End Sampler.
End Bessel.

(** ** Particles *)

Record FourVector : Type := {
  x0 : F64.t; x1 : F64.t; x2 : F64.t; x3 : F64.t
}.

(** [HistoryData] *)
Record HistoryData : Type := {
  collisions_per_particle : Z;
  id_process : Z;
  process_type : ProcessType;
  time_last_collision : F64.t;
  p1 : Z;
  p2 : Z
}.

(** What the sources read and write of a [ParticleData]; the PDG code and
    the charge of its type are kept as their integer values. *)
Record ParticleData : Type := {
  position : FourVector;
  effective_mass : F64.t;
  momentum : FourVector;
  pdgcode : Z;
  id : Z;
  charge : Z;
  get_history : HistoryData;
  formation_time : F64.t;
  xsec_scaling_factor : F64.t
}.

Definition ParticleList : Type := list ParticleData.

Definition set_4momentum (p : ParticleData) (mom : FourVector) : ParticleData :=
  {| position := position p; effective_mass := effective_mass p;
     momentum := mom; pdgcode := pdgcode p; id := id p; charge := charge p;
     get_history := get_history p; formation_time := formation_time p;
     xsec_scaling_factor := xsec_scaling_factor p |}.

Definition set_formation_time (p : ParticleData) (ft : F64.t) : ParticleData :=
  {| position := position p; effective_mass := effective_mass p;
     momentum := momentum p; pdgcode := pdgcode p; id := id p;
     charge := charge p; get_history := get_history p; formation_time := ft;
     xsec_scaling_factor := xsec_scaling_factor p |}.

Definition set_cross_section_scaling_factor (p : ParticleData) (xs : F64.t)
  : ParticleData :=
  {| position := position p; effective_mass := effective_mass p;
     momentum := momentum p; pdgcode := pdgcode p; id := id p;
     charge := charge p; get_history := get_history p;
     formation_time := formation_time p; xsec_scaling_factor := xs |}.

(** The integer value of a [ProcessType], as [static_cast<uint32_t>] gives
    it. *)
Definition ProcessType_code (t : ProcessType) : Z :=
  match t with
  | PT_None => 0 | PT_Elastic => 1 | PT_TwoToOne => 2 | PT_TwoToTwo => 3
  | PT_String => 4 | PT_Decay => 5
  end.

(** A C++ call returns, throws, or has undefined behaviour. *)
Inductive outcome (A : Type) : Type :=
  | Returned (a : A)
  | Threw (what : string)
  | Undefined.
Arguments Returned {A} a.
Arguments Threw {A} what.
Arguments Undefined {A}.

(** ** string_excitation (pythia.cc) *)

Module Pythia.

(** An entry of Pythia's event record, as far as the loop reads it. *)
Record EventEntry : Type := {
  isFinal : bool;
  isHadron : bool;
  entry_id : Z;
  e : F64.t; px : F64.t; py : F64.t; pz : F64.t
}.

(** The first comparison [sortfunc] makes decides; it has no [return] when
    one of the lists is empty. *)
Definition sortfunc (l1 l2 : ParticleList) : option bool :=
  match l1, l2 with
  | d1 :: _, d2 :: _ => Some (F64.ltb (x3 (momentum d1)) (x3 (momentum d2)))
  | _, _ => None
  end.

Section StringExcitation.
Context {RE : RandomEngine}.
(** Whether the build defines [PYTHIA_FOUND]. *)
Variable PYTHIA_FOUND : bool.
(** Pythia, once configured with the seed, the two beam species and the
    centre-of-mass energy: the event [pythia.next()] generates. *)
Variable pythia_next : F64.t -> Z -> Z -> F64.t -> list EventEntry.
(** [ParticleData(ParticleType::find(code))] *)
Variable particle_of_type : Z -> ParticleData.
(** [(p + q).abs()] on four-vectors *)
Variable abs_of_sum : FourVector -> FourVector -> F64.t.
(** [std::sort] with [sortfunc] *)
Variable sort_by_z : ParticleList -> ParticleList.

(** The loop over the event: a particle for every final hadron. *)
Definition final_hadrons (event : list EventEntry) : ParticleList :=
  map (fun en =>
         set_4momentum (particle_of_type (entry_id en))
           {| x0 := e en; x1 := px en; x2 := py en; x3 := pz en |})
      (filter (fun en => isFinal en && isHadron en) event).

(** The last loop: every hadron gets the formation time and a cross-section
    scaling factor of zero. *)
Definition stamp (formation_time_ : F64.t) (l : ParticleList) : ParticleList :=
  map (fun data_ =>
         set_cross_section_scaling_factor
           (set_formation_time data_ formation_time_) F64.zero) l.

Definition string_excitation (incoming_particles_ : ParticleList)
           (formation_time_ : F64.t) (engine : Engine)
  : outcome ParticleList * Engine :=
  if PYTHIA_FOUND then
    let '(seed, engine) := Random.canonical engine in
    match incoming_particles_ with
    | a :: b :: _ =>
        let sqrts := abs_of_sum (momentum a) (momentum b) in
        let event := pythia_next seed (pdgcode a) (pdgcode b) sqrts in
        let new_intermediate_particles := sort_by_z (final_hadrons event) in
        (Returned (stamp formation_time_ new_intermediate_particles), engine)
    | _ => (Undefined, engine)
    end
  else
    (Threw "Pythia 8 not available for string excitation", engine).
(** A run of calls, one after the other on the shared engine: the outcome
    of each. *)
Fixpoint string_excitations (calls : list (ParticleList * F64.t))
         (engine : Engine) : list (outcome ParticleList) * Engine :=
  match calls with
  | [] => ([], engine)
  | (incoming_particles_, formation_time_) :: rest =>
      let '(r, engine) :=
        string_excitation incoming_particles_ formation_time_ engine in
      let '(rs, engine) := string_excitations rest engine in
      (r :: rs, engine)
  end.
End StringExcitation.
End Pythia.

(** ** Binary output (binaryoutput.cc) *)

Module BinaryOutput.

(** One [fwrite] of a value of a fixed-size type, or of a run of chars. *)
Inductive datum : Type :=
  | Char (c : ascii)
  | Chars (s : string)
  | U16 (z : Z)
  | U32 (z : Z)
  | I32 (z : Z)
  | F64v (x : F64.t).

(** The output file: what has reached the disk and what [fwrite] has
    buffered since the last [fflush]. *)
Record File : Type := {
  on_disk : list datum;
  buffered : list datum
}.

Definition fwrite (d : list datum) (f : File) : File :=
  {| on_disk := on_disk f; buffered := buffered f ++ d |}.

Definition fflush (f : File) : File :=
  {| on_disk := on_disk f ++ buffered f; buffered := [] |}.

(** Everything written so far, flushed or not. *)
Definition written (f : File) : list datum := on_disk f ++ buffered f.

(** [write(const FourVector &)]: four doubles. *)
Definition write_fourvector (v : FourVector) : list datum :=
  [F64v (x0 v); F64v (x1 v); F64v (x2 v); F64v (x3 v)].

(** [BinaryOutputBase::write_particledata]: the particle line. *)
Definition write_particledata (extended_ : bool) (p : ParticleData)
  : list datum :=
  write_fourvector (position p)
  ++ [F64v (effective_mass p)]
  ++ write_fourvector (momentum p)
  ++ [I32 (pdgcode p); I32 (id p); I32 (charge p)]
  ++ (if extended_ then
        let history := get_history p in
        [I32 (collisions_per_particle history);
         F64v (formation_time p);
         F64v (xsec_scaling_factor p);
         U32 (id_process history);
         U32 (ProcessType_code (process_type history));
         F64v (time_last_collision history);
         I32 (p1 history);
         I32 (p2 history)]
      else []).

(** [write(const Particles &)] and [write(const ParticleList &)] *)
Definition write_particles (extended_ : bool) (particles : ParticleList)
  : list datum :=
  flat_map (write_particledata extended_) particles.

(** [write(size_t)]: the size as a [uint32_t]. *)
Definition write_size (n : nat) : list datum := [U32 (Z.of_nat n)].

(** The members of a [BinaryOutputCollisions]. *)
Record BinaryOutputCollisions : Type := {
  file_ : File;
  extended_ : bool;
  print_start_end_ : bool
}.

Definition with_file (o : BinaryOutputCollisions) (f : File)
  : BinaryOutputCollisions :=
  {| file_ := f; extended_ := extended_ o;
     print_start_end_ := print_start_end_ o |}.

(** The block of the full particle set: ['p'], the count, the lines. *)
Definition particles_block (ext : bool) (particles : ParticleList)
  : list datum :=
  [Char "p"%char] ++ write_size (List.length particles)
  ++ write_particles ext particles.

Definition at_eventstart (o : BinaryOutputCollisions) (particles : ParticleList)
           (event_number : Z) : BinaryOutputCollisions :=
  if print_start_end_ o then
    with_file o
      (fwrite (write_particles (extended_ o) particles)
         (fwrite (write_size (List.length particles))
            (fwrite [Char "p"%char] (file_ o))))
  else o.

Definition at_eventend (o : BinaryOutputCollisions) (particles : ParticleList)
           (event_number : Z) (impact_parameter : F64.t)
  : BinaryOutputCollisions :=
  let o :=
    if print_start_end_ o then
      with_file o
        (fwrite (write_particles (extended_ o) particles)
           (fwrite (write_size (List.length particles))
              (fwrite [Char "p"%char] (file_ o))))
    else o in
  let f := fwrite [Char "f"%char] (file_ o) in
  let f := fwrite [I32 event_number] f in
  let f := fwrite [F64v impact_parameter] f in
  with_file o (fflush f).

(** What [at_interaction] reads of the action it reports. *)
Record Action : Type := {
  incoming_particles : ParticleList;
  outgoing_particles : ParticleList;
  get_total_weight : F64.t;
  get_partial_weight : F64.t;
  get_type : ProcessType
}.

Definition at_interaction (o : BinaryOutputCollisions) (action : Action)
           (density : F64.t) : BinaryOutputCollisions :=
  let f := fwrite [Char "i"%char] (file_ o) in
  let f := fwrite (write_size (List.length (incoming_particles action))) f in
  let f := fwrite (write_size (List.length (outgoing_particles action))) f in
  let f := fwrite [F64v density] f in
  let f := fwrite [F64v (get_total_weight action)] f in
  let f := fwrite [F64v (get_partial_weight action)] f in
  let f := fwrite [U32 (ProcessType_code (get_type action))] f in
  let f := fwrite (write_particles (extended_ o) (incoming_particles action)) f in
  let f := fwrite (write_particles (extended_ o) (outgoing_particles action)) f in
  with_file o f.

(** The interaction block [at_interaction] appends, as one list. *)
Definition interaction_record (ext : bool) (action : Action) (density : F64.t)
  : list datum :=
  [Char "i"%char;
   U32 (Z.of_nat (List.length (incoming_particles action)));
   U32 (Z.of_nat (List.length (outgoing_particles action)));
   F64v density;
   F64v (get_total_weight action);
   F64v (get_partial_weight action);
   U32 (ProcessType_code (get_type action))]
  ++ write_particles ext (incoming_particles action)
  ++ write_particles ext (outgoing_particles action).


Definition set_id_process (n : Z) (p : ParticleData) : ParticleData :=
  let h := get_history p in
  {| position := position p; effective_mass := effective_mass p;
     momentum := momentum p; pdgcode := pdgcode p; id := id p;
     charge := charge p;
     get_history :=
       {| collisions_per_particle := collisions_per_particle h;
          id_process := n;
          process_type := process_type h;
          time_last_collision := time_last_collision h;
          p1 := p1 h; p2 := p2 h |};
     formation_time := formation_time p;
     xsec_scaling_factor := xsec_scaling_factor p |}.


End BinaryOutput.

(** ** A concrete engine and a concrete libm

    The examples below run the model on an engine whose draws are read from
    a tape of canonical variates (numbers in [[0,1)]), each distribution
    consuming one, and on a small libm. *)

Module Scripted.

Definition Tape : Type := list F64.t.

Definition draw (tape : Tape) : F64.t * Tape :=
  match tape with
  | [] => (F64.zero, [])
  | u :: rest => (u, rest)
  end.

(** [double] to [float], rounding to nearest. *)
Definition to_float (x : F64.t) : F32.t :=
  match x with
  | S754_finite s m e => binary_round F32.prec F32.emax s m e
  | _ => x
  end.

(** [min + (max - min) * u], the affine map of [uniform_real_distribution]. *)
Definition scripted_uniform_float (min max : F32.t) (tape : Tape)
  : F32.t * Tape :=
  let '(u, rest) := draw tape in
  (F32.add min (F32.mul (F32.sub max min) (to_float u)), rest).

Definition scripted_uniform_double (min max : F64.t) (tape : Tape)
  : F64.t * Tape :=
  let '(u, rest) := draw tape in
  (F64.add min (F64.mul (F64.sub max min) u), rest).

(** A symmetric draw around [mean]: [mean + sigma * (4 u - 2)]. *)
Definition scripted_normal (mean sigma : F64.t) (tape : Tape) : F64.t * Tape :=
  let '(u, rest) := draw tape in
  (F64.add mean
     (F64.mul sigma (F64.sub (F64.mul (F64.of_Z 4) u) (F64.of_Z 2))), rest).

(** The index whose cumulative weight first exceeds [target]. *)
Fixpoint pick (weights : list F64.t) (target acc : F64.t) (i : Z) : Z :=
  match weights with
  | [] => Z.max 0 (i - 1)
  | w :: rest =>
      let acc := F64.add acc w in
      if F64.ltb target acc then i else pick rest target acc (i + 1)
  end.

(** Inversion of the cumulative weights at [u * sum]. *)
Definition scripted_discrete (weights : list F64.t) (tape : Tape) : Z * Tape :=
  let '(u, rest) := draw tape in
  let sum := fold_left F64.add weights F64.zero in
  (pick weights (F64.mul u sum) F64.zero 0, rest).

#[local] Instance engine : RandomEngine := {|
  Engine := Tape;
  Seed := Tape;
  engine_seed := fun tape => tape;
  uniform_float := scripted_uniform_float;
  uniform_double := scripted_uniform_double;
  generate_canonical := draw;
  normal_distribution := scripted_normal;
  discrete_distribution := scripted_discrete
|}.

(** [sum_{k < n} x^k / k!], by Horner's rule from the last term. *)
Fixpoint exp_series (n : nat) (x : F64.t) (acc : F64.t) : F64.t :=
  match n with
  | O => acc
  | S n' =>
      exp_series n' x
        (F64.add (F64.of_Z 1)
                 (F64.div (F64.mul x acc) (F64.of_Z (Z.of_nat n))))
  end.

(** The exponential, by its series: accurate for moderate arguments. *)
Definition scripted_exp (x : F64.t) : F64.t := exp_series 40 x (F64.of_Z 1).

(** [sum_{j < n} s^(2j+1) / (2j+1)], the series of [atanh]. *)
Fixpoint atanh_series (n : nat) (s s2 : F64.t) (acc : F64.t) : F64.t :=
  match n with
  | O => F64.mul s acc
  | S n' =>
      atanh_series n' s s2
        (F64.add (F64.div (F64.of_Z 1) (F64.of_Z (2 * Z.of_nat n' + 1)))
                 (F64.mul s2 acc))
  end.

Definition ln2 : F64.t := F64.of_frac 6931471805599453 10000000000000000.

(** The logarithm: [x = f * 2^k] with [f] in [[1/2, 1)], and
    [log f = 2 atanh ((f - 1) / (f + 1))]. *)
Definition scripted_log (x : F64.t) : F64.t :=
  match x with
  | S754_nan => S754_nan
  | S754_zero _ => S754_infinity true
  | S754_infinity false => x
  | S754_infinity true => S754_nan
  | S754_finite true _ _ => S754_nan
  | S754_finite false _ _ =>
      let '(f, k) := SFfrexp F64.prec F64.emax x in
      let s := F64.div (F64.sub f (F64.of_Z 1)) (F64.add f (F64.of_Z 1)) in
      F64.add (F64.mul (F64.of_Z k) ln2)
              (F64.mul (F64.of_Z 2)
                       (atanh_series 30 s (F64.mul s s) F64.zero))
  end.

#[local] Instance libm : LibM := {|
  libm_log := scripted_log;
  libm_exp := scripted_exp
|}.

End Scripted.

(** ** Data for the examples *)

Module Examples.

(** A channel without final-state particles that is not a string: the
    guard of [choose_channel] passes over it. *)
Definition undefined_channel : Branch :=
  {| particle_types := []; weight := F32.of_Z 1; get_type := PT_Elastic |}.

Definition elastic_channel : Branch :=
  {| particle_types := [2212; 2212]; weight := F32.of_Z 1;
     get_type := PT_Elastic |}.

Definition two_channels : list Branch := [undefined_channel; elastic_channel].

(** One variate, [1/4]: the draw from [[0, 2)] is [1/2], the draw from
    [[0, 4)] is [1]. *)
Definition tape_quarter : Scripted.Tape := [F64.of_Z2 1 (-2)].

(** One variate, [3/4]. *)
Definition tape_three_quarters : Scripted.Tape := [F64.of_Z2 3 (-2)].

(** One variate, [1/2]. *)
Definition tape_half : Scripted.Tape := [F64.of_Z2 1 (-1)].

(** Two actions scheduled at the same time, the second with the larger
    total weight. *)
Definition light_action : Action.t :=
  {| Action.incoming_particles_ := [1; 2];
     Action.time_of_execution_ := F32.of_Z 1;
     Action.process_type_ := PT_Elastic;
     Action.channels_ := [elastic_channel];
     Action.total_weight_ := F32.of_Z 1 |}.

Definition heavy_action : Action.t :=
  {| Action.incoming_particles_ := [3; 4];
     Action.time_of_execution_ := F32.of_Z 1;
     Action.process_type_ := PT_Elastic;
     Action.channels_ := [elastic_channel];
     Action.total_weight_ := F32.of_Z 5 |}.

Definition later_action : Action.t :=
  {| Action.incoming_particles_ := [5; 6];
     Action.time_of_execution_ := F32.of_Z 2;
     Action.process_type_ := PT_Elastic;
     Action.channels_ := [elastic_channel];
     Action.total_weight_ := F32.of_Z 1 |}.

(** The class constants of the sampler as the examples take them. *)
Definition m_switch_method : F64.t := F64.of_Z 6.
Definition negligible_probability : F64.t := F64.of_frac 1 1000000000000.

Definition origin : FourVector :=
  {| x0 := F64.zero; x1 := F64.zero; x2 := F64.zero; x3 := F64.zero |}.

(** A proton at rest at the origin. *)
Definition proton : ParticleData :=
  {| position := origin;
     effective_mass := F64.of_frac 938 1000;
     momentum := {| x0 := F64.of_frac 938 1000; x1 := F64.zero;
                    x2 := F64.zero; x3 := F64.zero |};
     pdgcode := 2212; id := 0; charge := 1;
     get_history := {| collisions_per_particle := 0; id_process := 0;
                       process_type := PT_None;
                       time_last_collision := F64.zero; p1 := 0; p2 := 0 |};
     formation_time := F64.zero;
     xsec_scaling_factor := F64.of_Z 1 |}.

Definition elastic_pp : BinaryOutput.Action :=
  {| BinaryOutput.incoming_particles := [proton; proton];
     BinaryOutput.outgoing_particles := [proton; proton];
     BinaryOutput.get_total_weight := F64.of_Z 40;
     BinaryOutput.get_partial_weight := F64.of_Z 40;
     BinaryOutput.get_type := PT_Elastic |}.

Definition new_file : BinaryOutput.File :=
  {| BinaryOutput.on_disk := []; BinaryOutput.buffered := [] |}.

Definition plain_output : BinaryOutput.BinaryOutputCollisions :=
  {| BinaryOutput.file_ := new_file; BinaryOutput.extended_ := false;
     BinaryOutput.print_start_end_ := false |}.


(** Stand-ins for Pythia and the particle table, for running
    [string_excitation] in a build without Pythia: they are never called
    there. *)
Definition no_event (seed : F64.t) (idA idB : Z) (eCM : F64.t)
  : list Pythia.EventEntry := [].
Definition any_particle (code : Z) : ParticleData := proton.
Definition no_abs (p q : FourVector) : F64.t := F64.zero.
Definition no_sort (l : ParticleList) : ParticleList := l.

End Examples.


(** ** Lists of actions (action.h) *)

Module ActionList.

(** [operator+=] on [std::vector<ActionPtr>]: an empty left-hand side takes
    the right-hand side over, any other has it inserted at its end. *)
Definition operator_plus_eq (lhs rhs : list Action.t) : list Action.t :=
  match List.length lhs with
  | O => rhs
  | S _ => lhs ++ rhs
  end.

End ActionList.

(** ** Binary output: the base class and the particles output *)

Module BinaryFormat.
Import BinaryOutput.

(** The number of bytes one [fwrite] puts in the file. *)
Definition size_of (d : datum) : Z :=
  match d with
  | Char _ => 1
  | Chars s => Z.of_nat (String.length s)
  | U16 _ => 2
  | U32 _ => 4
  | I32 _ => 4
  | F64v _ => 8
  end.

Definition bytes (l : list datum) : Z :=
  fold_right (fun d n => size_of d + n) 0 l.

(** The bytes of a particle line in the two formats. *)
Definition line_bytes (extended_ : bool) : Z := if extended_ then 128 else 84.

(** The members of a [BinaryOutputParticles]. *)
Record BinaryOutputParticles : Type := {
  file_ : File;
  extended_ : bool;
  only_final_ : bool
}.

Definition with_file (o : BinaryOutputParticles) (f : File)
  : BinaryOutputParticles :=
  {| file_ := f; extended_ := extended_ o; only_final_ := only_final_ o |}.

Definition at_eventstart (o : BinaryOutputParticles) (particles : ParticleList)
           (event_number : Z) : BinaryOutputParticles :=
  if negb (only_final_ o) then
    with_file o
      (fwrite (write_particles (extended_ o) particles)
         (fwrite (write_size (List.length particles))
            (fwrite [Char "p"%char] (file_ o))))
  else o.

Definition at_eventend (o : BinaryOutputParticles) (particles : ParticleList)
           (event_number : Z) (impact_parameter : F64.t)
  : BinaryOutputParticles :=
  let f := fwrite [Char "p"%char] (file_ o) in
  let f := fwrite (write_size (List.length particles)) f in
  let f := fwrite (write_particles (extended_ o) particles) f in
  let f := fwrite [Char "f"%char] f in
  let f := fwrite [I32 event_number] f in
  let f := fwrite [F64v impact_parameter] f in
  with_file o (fflush f).

Definition at_intermediate_time (o : BinaryOutputParticles)
           (particles : ParticleList) : BinaryOutputParticles :=
  if negb (only_final_ o) then
    with_file o
      (fwrite (write_particles (extended_ o) particles)
         (fwrite (write_size (List.length particles))
            (fwrite [Char "p"%char] (file_ o))))
  else o.

(** One event as the particles output sees it: the start, the particle set
    at each intermediate output time, the end. *)
Definition particles_event (o : BinaryOutputParticles)
           (initial : ParticleList) (intermediate : list ParticleList)
           (final : ParticleList) (event_number : Z)
           (impact_parameter : F64.t) : BinaryOutputParticles :=
  at_eventend
    (fold_left at_intermediate_time intermediate
               (at_eventstart o initial event_number))
    final event_number impact_parameter.

(** One event as the collisions output sees it: the start, the interactions
    in the order they are committed, the end. *)
Definition collisions_event (o : BinaryOutputCollisions)
           (initial : ParticleList) (interactions : list (Action * F64.t))
           (final : ParticleList) (event_number : Z)
           (impact_parameter : F64.t) : BinaryOutputCollisions :=
  BinaryOutput.at_eventend
    (fold_left (fun o i => at_interaction o (fst i) (snd i)) interactions
               (BinaryOutput.at_eventstart o initial event_number))
    final event_number impact_parameter.

End BinaryFormat.

(** ** TimeStampCounter (tsc.h) *)

Module Tsc.

(** The union [Data]: an [unsigned long long] that shares its storage with
    two [unsigned int]; on x86, the only target of the [rdtscp]
    instruction, [b[0]] is the low half and [b[1]] the high half. *)
Record Data : Type := { b0 : Z; b1 : Z }.

Definition a (d : Data) : Z := b0 d + 2 ^ 32 * b1 d.

Record TimeStampCounter : Type := { m_start : Data; m_end : Data }.

(** [rdtscp] with outputs ["=a"] and ["=d"]: the low and the high 32 bits
    of the processor's 64-bit time-stamp counter. *)
Definition rdtscp (counter : Z) : Data :=
  {| b0 := counter mod 2 ^ 32; b1 := (counter / 2 ^ 32) mod 2 ^ 32 |}.

(** [start] and [stop], given the value the counter has at that moment. *)
Definition start (t : TimeStampCounter) (counter : Z) : TimeStampCounter :=
  {| m_start := rdtscp counter; m_end := m_end t |}.

Definition stop (t : TimeStampCounter) (counter : Z) : TimeStampCounter :=
  {| m_start := m_start t; m_end := rdtscp counter |}.

(** [cycles]: a subtraction of [unsigned long long], modulo [2^64]. *)
Definition cycles (t : TimeStampCounter) : Z :=
  (a (m_end t) - a (m_start t)) mod 2 ^ 64.

End Tsc.

(** ** More data for the examples *)

Module MoreExamples.
Import Examples.

Definition small_channel : Branch :=
  {| particle_types := [111]; weight := F32.of_Z 3;
     get_type := PT_TwoToOne |}.

(** The threshold as the examples take it, [10^-6]. *)
Definition really_small : F32.t := F32.of_frac 1 1000000.

(** A Pythia event: a final pion, a quark that is not a hadron, a proton
    that is not final, a final proton. *)
Definition pion_entry : Pythia.EventEntry :=
  {| Pythia.isFinal := true; Pythia.isHadron := true; Pythia.entry_id := 211;
     Pythia.e := F64.of_Z 2; Pythia.px := F64.zero; Pythia.py := F64.zero;
     Pythia.pz := F64.of_Z 1 |}.
Definition quark_entry : Pythia.EventEntry :=
  {| Pythia.isFinal := true; Pythia.isHadron := false; Pythia.entry_id := 2;
     Pythia.e := F64.of_Z 1; Pythia.px := F64.zero; Pythia.py := F64.zero;
     Pythia.pz := F64.zero |}.
Definition old_proton_entry : Pythia.EventEntry :=
  {| Pythia.isFinal := false; Pythia.isHadron := true;
     Pythia.entry_id := 2212;
     Pythia.e := F64.of_Z 3; Pythia.px := F64.zero; Pythia.py := F64.zero;
     Pythia.pz := F64.of_Z 2 |}.
Definition proton_entry : Pythia.EventEntry :=
  {| Pythia.isFinal := true; Pythia.isHadron := true; Pythia.entry_id := 2212;
     Pythia.e := F64.of_Z 3; Pythia.px := F64.zero; Pythia.py := F64.zero;
     Pythia.pz := F64.of_Z (-1) |}.

Definition one_event (seed : F64.t) (idA idB : Z) (eCM : F64.t)
  : list Pythia.EventEntry :=
  [pion_entry; quark_entry; old_proton_entry; proton_entry].

(** A particle of the given species, otherwise like the example proton. *)
Definition particle_of (code : Z) : ParticleData :=
  {| position := origin; effective_mass := F64.zero; momentum := origin;
     pdgcode := code; id := 0; charge := 0;
     get_history := get_history proton;
     formation_time := F64.zero; xsec_scaling_factor := F64.of_Z 1 |}.

(** The example proton moving backwards along the beam axis. *)
Definition backward_proton : ParticleData :=
  set_4momentum proton
    {| x0 := F64.of_Z 2; x1 := F64.zero; x2 := F64.zero;
       x3 := F64.of_Z (-1) |}.

(** A pion produced in process 7. *)
Definition pion : ParticleData :=
  {| position := origin; effective_mass := F64.of_frac 138 1000;
     momentum := origin; pdgcode := 211; id := 5; charge := 1;
     get_history := {| collisions_per_particle := 1; id_process := 7;
                       process_type := PT_TwoToTwo;
                       time_last_collision := F64.of_Z 3;
                       p1 := 2212; p2 := 2212 |};
     formation_time := F64.of_Z 1;
     xsec_scaling_factor := F64.zero |}.

(** An action whose scheduled time is NaN, and a third action scheduled at
    the time of the first two examples. *)
Definition nan_action : Action.t :=
  {| Action.incoming_particles_ := [7; 8];
     Action.time_of_execution_ := F32.nan;
     Action.process_type_ := PT_Elastic;
     Action.channels_ := [elastic_channel];
     Action.total_weight_ := F32.of_Z 1 |}.

Definition middle_action : Action.t :=
  {| Action.incoming_particles_ := [9; 10];
     Action.time_of_execution_ := F32.of_Z 1;
     Action.process_type_ := PT_TwoToOne;
     Action.channels_ := [small_channel];
     Action.total_weight_ := F32.of_Z 3 |}.

Definition particles_output : BinaryFormat.BinaryOutputParticles :=
  {| BinaryFormat.file_ := new_file; BinaryFormat.extended_ := false;
     BinaryFormat.only_final_ := true |}.

End MoreExamples.

(** * Properties *)

(** ** The order on floats *)

Section FloatOrder.

Lemma SFcompare_lt_key (x y : spec_float) :
  is_nan x = false -> is_nan y = false ->
  (SFcompare x y = Some Lt <-> lex_lt (order_key x) (order_key y)).
Proof.
  intros Hx Hy.
  destruct x as [sx|sx| |sx mx ex]; try discriminate Hx;
  destruct y as [sy|sy| |sy my ey]; try discriminate Hy;
  try destruct sx; try destruct sy; cbn [SFcompare order_key lex_lt];
  try (split; [intros H; try discriminate H; lia | intros H; first [reflexivity | exfalso; lia]]).
  - change (Pos.compare_cont Eq mx my) with (Pos.compare mx my).
    destruct (Z.compare_spec ex ey); destruct (Pos.compare_spec mx my);
      cbn [CompOpp]; split; intros K; try discriminate K; try reflexivity;
      try lia; exfalso; subst; lia.
  - change (Pos.compare_cont Eq mx my) with (Pos.compare mx my).
    destruct (Z.compare_spec ex ey); destruct (Pos.compare_spec mx my);
      split; intros K; try discriminate K; try reflexivity;
      try lia; exfalso; subst; lia.
Qed.

Lemma SFcompare_swap (x y : spec_float) :
  SFcompare y x = match SFcompare x y with
                  | Some c => Some (CompOpp c)
                  | None => None
                  end.
Proof.
  destruct x as [sx|sx| |sx mx ex];
  destruct y as [sy|sy| |sy my ey];
  try destruct sx; try destruct sy; cbn [SFcompare CompOpp]; try reflexivity.
  - rewrite (Z.compare_antisym ey ex).
    change (Pos.compare_cont Eq my mx) with (Pos.compare my mx).
    change (Pos.compare_cont Eq mx my) with (Pos.compare mx my).
    rewrite (Pos.compare_antisym my mx).
    destruct (ey ?= ex); destruct (my ?= mx)%positive; reflexivity.
  - rewrite (Z.compare_antisym ey ex).
    change (Pos.compare_cont Eq my mx) with (Pos.compare my mx).
    change (Pos.compare_cont Eq mx my) with (Pos.compare mx my).
    rewrite (Pos.compare_antisym my mx).
    destruct (ey ?= ex); destruct (my ?= mx)%positive; reflexivity.
Qed.

Lemma SFcompare_some (x y : spec_float) :
  is_nan x = false -> is_nan y = false -> exists c, SFcompare x y = Some c.
Proof.
  intros Hx Hy.
  destruct x as [sx|sx| |sx mx ex]; try discriminate Hx;
  destruct y as [sy|sy| |sy my ey]; try discriminate Hy;
  cbn [SFcompare]; eexists; reflexivity.
Qed.

Lemma SFltb_not_nan (x y : spec_float) :
  SFltb x y = true -> is_nan x = false /\ is_nan y = false.
Proof.
  unfold SFltb. destruct x, y; cbn; intros H; try discriminate H; auto.
Qed.

Lemma SFltb_key (x y : spec_float) :
  is_nan x = false -> is_nan y = false ->
  (SFltb x y = true <-> lex_lt (order_key x) (order_key y)).
Proof.
  intros Hx Hy. rewrite <- (SFcompare_lt_key x y Hx Hy). unfold SFltb.
  destruct (SFcompare x y) as [[]|]; split; intros H;
    try discriminate H; try reflexivity; congruence.
Qed.

(** [x <= y] is "not [y < x]" on floats that are not NaN. *)
Lemma SFleb_key (x y : spec_float) :
  is_nan x = false -> is_nan y = false ->
  (SFleb x y = true <-> ~ lex_lt (order_key y) (order_key x)).
Proof.
  intros Hx Hy. rewrite <- (SFcompare_lt_key y x Hy Hx).
  rewrite (SFcompare_swap x y). unfold SFleb.
  destruct (SFcompare_some x y Hx Hy) as [c Hc]. rewrite Hc.
  destruct c; cbn [CompOpp]; split; intros H;
    try discriminate H; try reflexivity; try congruence.
Qed.

Lemma SFltb_irrefl (x : spec_float) : SFltb x x = false.
Proof.
  destruct (SFltb x x) eqn:E; [|reflexivity].
  destruct (SFltb_not_nan _ _ E) as [Hx _].
  apply (SFltb_key x x Hx Hx) in E.
  unfold lex_lt in E. destruct (order_key x) as [[a b] c]. lia.
Qed.

Lemma SFltb_asym (x y : spec_float) : SFltb x y = true -> SFltb y x = false.
Proof.
  intros H. destruct (SFltb_not_nan _ _ H) as [Hx Hy].
  apply (SFltb_key x y Hx Hy) in H.
  destruct (SFltb y x) eqn:E; [|reflexivity].
  apply (SFltb_key y x Hy Hx) in E. unfold lex_lt in *.
  destruct (order_key x) as [[a b] c]. destruct (order_key y) as [[a' b'] c'].
  lia.
Qed.

Lemma SFltb_trans (x y z : spec_float) :
  SFltb x y = true -> SFltb y z = true -> SFltb x z = true.
Proof.
  intros H1 H2.
  destruct (SFltb_not_nan _ _ H1) as [Hx Hy].
  destruct (SFltb_not_nan _ _ H2) as [_ Hz].
  apply (SFltb_key x y Hx Hy) in H1. apply (SFltb_key y z Hy Hz) in H2.
  apply (SFltb_key x z Hx Hz). unfold lex_lt in *.
  destruct (order_key x) as [[a b] c]. destruct (order_key y) as [[a' b'] c'].
  destruct (order_key z) as [[a'' b''] c'']. lia.
Qed.

End FloatOrder.

(** ** Action: the channel list and its total weight *)

Section ActionChannels.
Import Action.

Lemma sum_weights_app (l1 l2 : list Branch) :
  sum_weights (l1 ++ l2)
  = fold_left (fun tw proc => F32.add tw (weight proc)) l2 (sum_weights l1).
Proof. unfold sum_weights. apply fold_left_app. Qed.

Lemma add_process_total (rs : F32.t) (p : Branch) (st : Channels) :
  snd st = sum_weights (fst st) ->
  snd (add_process rs p st) = sum_weights (fst (add_process rs p st)).
Proof.
  destruct st as [subs tw]. cbn [fst snd]. intros ->. unfold add_process.
  destruct (F32.gtb (weight p) rs); cbn [fst snd]; [|reflexivity].
  rewrite sum_weights_app. reflexivity.
Qed.

Lemma add_processes_total (pv : list Branch) (st : Channels) :
  snd st = sum_weights (fst st) ->
  snd (add_processes pv st) = sum_weights (fst (add_processes pv st)).
Proof.
  destruct st as [subs tw]. cbn [fst snd]. intros ->. unfold add_processes.
  destruct subs as [|b subs]; cbn [fst snd].
  - reflexivity.
  - rewrite sum_weights_app. reflexivity.
Qed.

Lemma do_calls_total (rs : F32.t) (cs : list call) :
  forall st, snd st = sum_weights (fst st) ->
             snd (do_calls rs cs st) = sum_weights (fst (do_calls rs cs st)).
Proof.
  unfold do_calls. induction cs as [|c cs IH]; intros st Hst; cbn [fold_left].
  - exact Hst.
  - apply IH. destruct c; cbn [do_call].
    + apply add_process_total, Hst.
    + apply add_processes_total, Hst.
Qed.

(** After any sequence of [add_process] and [add_processes] calls on a new
    action, the total weight is the sum, in list order, of the weights of
    the channels in the list. *)
Theorem total_weight_is_sum_of_channels (rs : F32.t) (cs : list call) :
  snd (do_calls rs cs empty) = sum_weights (fst (do_calls rs cs empty)).
Proof. apply do_calls_total. reflexivity. Qed.

Lemma add_process_above (rs : F32.t) (p : Branch) (st : Channels) :
  Forall (fun b => F32.gtb (weight b) rs = true) (fst st) ->
  Forall (fun b => F32.gtb (weight b) rs = true) (fst (add_process rs p st)).
Proof.
  destruct st as [subs tw]. cbn [fst]. intros H. unfold add_process.
  destruct (F32.gtb (weight p) rs) eqn:E; cbn [fst]; [|exact H].
  apply Forall_app. split; [exact H|]. constructor; [exact E|constructor].
Qed.

(** Channels inserted one at a time with [add_process] all have a weight
    above the threshold: the others were dropped. *)
Theorem add_process_keeps_only_above_threshold (rs : F32.t) (ps : list Branch) :
  Forall (fun b => F32.gtb (weight b) rs = true)
         (fst (do_calls rs (map AddProcess ps) empty)).
Proof.
  assert (G : forall st,
            Forall (fun b => F32.gtb (weight b) rs = true) (fst st) ->
            Forall (fun b => F32.gtb (weight b) rs = true)
                   (fst (do_calls rs (map AddProcess ps) st))).
  { unfold do_calls. induction ps as [|p ps IH]; intros st Hst; cbn.
    - exact Hst.
    - apply IH. apply add_process_above, Hst. }
  apply G. constructor.
Qed.

(** [add_processes] has no threshold test: whatever it is given is in the
    list afterwards and is counted. *)
Lemma add_processes_keeps_all (pv : list Branch) (st : Channels) :
  fst (add_processes pv st) = fst st ++ pv.
Proof.
  destruct st as [subs tw]. unfold add_processes.
  destruct subs; reflexivity.
Qed.

(** C1, evaluated on the code: with the threshold at [10^-6], a channel of
    weight [2^-21] is negligible and [add_process] drops it, but
    [add_processes] keeps it in the channel list and adds its weight to the
    total: a negligible channel is not always discarded at insertion time,
    and it is counted. *)
Theorem C1_add_processes_keeps_negligible_channel :
  let really_small := F32.of_frac 1 1000000 in
  let tiny := {| particle_types := [211; -211]; weight := F32.of_Z2 1 (-21);
                 get_type := PT_TwoToTwo |} in
  let big := {| particle_types := [2212; 2212]; weight := F32.of_Z 1;
                get_type := PT_Elastic |} in
  negligible really_small tiny = true
  /\ add_process really_small tiny empty = empty
  /\ do_calls really_small [AddProcess tiny; AddProcess big] empty
     = ([big], F32.of_Z 1)
  /\ do_calls really_small [AddProcesses [tiny; big]] empty
     = ([tiny; big], F32.of_Z2 2097153 (-21))
  /\ SFeqb (F32.of_Z2 2097153 (-21)) (F32.of_Z 1) = false.
Proof. cbv zeta. repeat split; vm_compute; reflexivity. Qed.

End ActionChannels.

(** ** Action: choose_channel *)

Section ChooseChannel.
Import Action.

Lemma accumulate_not_skipped (s : F32.t) (proc : Branch) :
  skipped proc = false -> accumulate s proc = F32.add s (weight proc).
Proof. unfold accumulate. intros ->. reflexivity. Qed.

Lemma accumulate_skipped (s : F32.t) (proc : Branch) :
  skipped proc = true -> accumulate s proc = s.
Proof. unfold accumulate. intros ->. reflexivity. Qed.

(** When the loop returns a channel, it is the first channel looked at
    whose accumulated weight is at or above the draw. *)
Lemma walk_inl (r : F32.t) (l : list Branch) :
  forall i ws k b,
    walk r l i ws = inl (k, b) ->
    exists j,
      k = (i + j)%nat /\ nth_error l j = Some b /\ skipped b = false
      /\ F32.leb r (fold_left accumulate (firstn (S j) l) ws) = true
      /\ forall j' c, (j' < j)%nat -> nth_error l j' = Some c ->
                      skipped c = false ->
                      F32.leb r (fold_left accumulate (firstn (S j') l) ws)
                      = false.
Proof.
  induction l as [|proc rest IH]; intros i ws k b H; cbn [walk] in H.
  - discriminate H.
  - destruct (skipped proc) eqn:Hs.
    + destruct (IH _ _ _ _ H) as (j & -> & Hn & Hb & Hr & Hf).
      exists (S j). repeat split.
      * lia.
      * exact Hn.
      * exact Hb.
      * cbn [firstn fold_left] in *. rewrite (accumulate_skipped _ _ Hs).
        exact Hr.
      * intros [|j'] c Hlt Hc Hc'.
        -- cbn in Hc. injection Hc as <-. congruence.
        -- cbn [firstn fold_left]. rewrite (accumulate_skipped _ _ Hs).
           apply (Hf j' c); [lia|exact Hc|exact Hc'].
    + destruct (F32.leb r (F32.add ws (weight proc))) eqn:Hle.
      * injection H as <- <-. exists 0%nat. repeat split.
        -- lia.
        -- exact Hs.
        -- cbn [firstn fold_left]. rewrite (accumulate_not_skipped _ _ Hs).
           exact Hle.
        -- intros j' c Hlt. lia.
      * destruct (IH _ _ _ _ H) as (j & -> & Hn & Hb & Hr & Hf).
        exists (S j). repeat split.
        -- lia.
        -- exact Hn.
        -- exact Hb.
        -- cbn [firstn fold_left] in *. rewrite (accumulate_not_skipped _ _ Hs).
           exact Hr.
        -- intros [|j'] c Hlt Hc Hc'.
           ++ cbn [firstn fold_left]. rewrite (accumulate_not_skipped _ _ Hs).
              exact Hle.
           ++ cbn [firstn fold_left]. rewrite (accumulate_not_skipped _ _ Hs).
              apply (Hf j' c); [lia|exact Hc|exact Hc'].
Qed.

(** When the loop falls through, no channel looked at had an accumulated
    weight at or above the draw, and the sum is that of the whole list. *)
Lemma walk_inr (r : F32.t) (l : list Branch) :
  forall i ws s,
    walk r l i ws = inr s ->
    s = fold_left accumulate l ws
    /\ forall j c, nth_error l j = Some c -> skipped c = false ->
                   F32.leb r (fold_left accumulate (firstn (S j) l) ws) = false.
Proof.
  induction l as [|proc rest IH]; intros i ws s H; cbn [walk] in H.
  - injection H as <-. split; [reflexivity|].
    intros [|j] c Hc; discriminate Hc.
  - destruct (skipped proc) eqn:Hs.
    + destruct (IH _ _ _ H) as [-> Hf]. split.
      * cbn [fold_left]. rewrite (accumulate_skipped _ _ Hs). reflexivity.
      * intros [|j] c Hc Hc'.
        -- cbn in Hc. injection Hc as <-. congruence.
        -- cbn [firstn fold_left]. rewrite (accumulate_skipped _ _ Hs).
           apply (Hf j c Hc Hc').
    + destruct (F32.leb r (F32.add ws (weight proc))) eqn:Hle;
        [discriminate H|].
      destruct (IH _ _ _ H) as [-> Hf]. split.
      * cbn [fold_left]. rewrite (accumulate_not_skipped _ _ Hs). reflexivity.
      * intros [|j] c Hc Hc'.
        -- cbn [firstn fold_left]. rewrite (accumulate_not_skipped _ _ Hs).
           exact Hle.
        -- cbn [firstn fold_left]. rewrite (accumulate_not_skipped _ _ Hs).
           apply (Hf j c Hc Hc').
Qed.

Context {RE : RandomEngine}.

(** C2 (as amended): [choose_channel] draws once from [[0, total_weight)]
    and walks the list, passing over the channels its guard skips (no
    final-state particle and not a string) without adding their weight.
    Whenever some channel it looks at has an accumulated weight at or above
    the draw, it returns the first such channel in list order, and the
    engine has advanced by that one draw only. *)
Theorem choose_channel_selects_first_reached
        (subprocesses : list Branch) (total_weight : F32.t) (engine : Engine)
        (j : nat) :
  reaches (fst (Random.uniform F32.zero total_weight engine)) subprocesses j ->
  exists i b,
    choose_channel subprocesses total_weight engine
    = (Chosen i b, snd (Random.uniform F32.zero total_weight engine))
    /\ (i <= j)%nat
    /\ nth_error subprocesses i = Some b
    /\ reaches (fst (Random.uniform F32.zero total_weight engine))
               subprocesses i
    /\ forall k, (k < i)%nat ->
                 ~ reaches (fst (Random.uniform F32.zero total_weight engine))
                           subprocesses k.
Proof.
  unfold choose_channel.
  destruct (Random.uniform F32.zero total_weight engine) as [r e'] eqn:Hu.
  cbn [fst snd]. intros (c & Hc & Hsk & Hreach).
  destruct (walk r subprocesses 0 F32.zero) as [[i b]|s] eqn:Hw.
  - destruct (walk_inl _ _ _ _ _ _ Hw) as (i' & Hi & Hn & Hb & Hr & Hf).
    cbn in Hi. subst i'. exists i, b. repeat split.
    + destruct (Nat.le_gt_cases i j) as [Hle|Hgt]; [exact Hle|].
      specialize (Hf j c Hgt Hc Hsk). unfold accumulated in Hreach. congruence.
    + exact Hn.
    + exists b. repeat split; assumption.
    + intros k Hk (c' & Hc' & Hsk' & Hr').
      specialize (Hf k c' Hk Hc' Hsk'). unfold accumulated in Hr'. congruence.
  - destruct (walk_inr _ _ _ _ _ Hw) as [_ Hf].
    specialize (Hf j c Hc Hsk). unfold accumulated in Hreach. congruence.
Qed.

(** C3: when the walk reaches the end of the channel list without any
    channel's accumulated weight being at or above the draw,
    [choose_channel] returns no channel: it logs the number of channels, the
    accumulated weight sum, the total weight and the draw, and throws
    [std::runtime_error]. *)
Theorem choose_channel_throws_when_nothing_reached
        (subprocesses : list Branch) (total_weight : F32.t) (engine : Engine) :
  (forall k, ~ reaches (fst (Random.uniform F32.zero total_weight engine))
                       subprocesses k) ->
  choose_channel subprocesses total_weight engine
  = (Thrown {| diag_size := List.length subprocesses;
               diag_weight_sum := accumulated_all subprocesses;
               diag_total_weight := total_weight;
               diag_random_weight :=
                 fst (Random.uniform F32.zero total_weight engine) |}
            "problem in choose_channel",
     snd (Random.uniform F32.zero total_weight engine)).
Proof.
  unfold choose_channel.
  destruct (Random.uniform F32.zero total_weight engine) as [r e'] eqn:Hu.
  cbn [fst snd]. intros Hno.
  destruct (walk r subprocesses 0 F32.zero) as [[i b]|s] eqn:Hw.
  - exfalso. destruct (walk_inl _ _ _ _ _ _ Hw) as (i' & Hi & Hn & Hb & Hr & _).
    cbn in Hi. subst i'. apply (Hno i). exists b. repeat split; assumption.
  - destruct (walk_inr _ _ _ _ _ Hw) as [-> _]. reflexivity.
Qed.

End ChooseChannel.

Section ChooseChannelExamples.
Import Action Examples.

(** With the draw [1/2] on the two example channels, the second channel is
    reached, and [choose_channel] returns a channel at or before it. *)
Lemma choose_channel_selects_first_reached_witness :
  reaches (fst (Random.uniform (RE := Scripted.engine) F32.zero (F32.of_Z 2)
                               tape_quarter))
          two_channels 1
  /\ exists i b,
       choose_channel (RE := Scripted.engine) two_channels (F32.of_Z 2)
                      tape_quarter
       = (Chosen i b,
          snd (Random.uniform (RE := Scripted.engine) F32.zero (F32.of_Z 2)
                              tape_quarter))
       /\ (i <= 1)%nat
       /\ nth_error two_channels i = Some b
       /\ reaches (fst (Random.uniform (RE := Scripted.engine) F32.zero
                                       (F32.of_Z 2) tape_quarter))
                  two_channels i
       /\ forall k, (k < i)%nat ->
                    ~ reaches (fst (Random.uniform (RE := Scripted.engine)
                                                   F32.zero (F32.of_Z 2)
                                                   tape_quarter))
                              two_channels k.
Proof.
  assert (H : reaches (fst (Random.uniform (RE := Scripted.engine) F32.zero
                                           (F32.of_Z 2) tape_quarter))
                      two_channels 1).
  { exists elastic_channel. repeat split; vm_compute; reflexivity. }
  split; [exact H|].
  exact (choose_channel_selects_first_reached (RE := Scripted.engine)
           two_channels (F32.of_Z 2) tape_quarter 1 H).
Defined.

(** C2 as stated fails: the draw is [1/2] and the first channel already has
    cumulative weight [1], so the walk the claim describes selects channel
    0; [choose_channel] passes over that channel (it has no final-state
    particle and is not a string) and returns channel 1. *)
Lemma choose_channel_skips_first_reaching_channel :
  spec_choose (fst (Random.uniform (RE := Scripted.engine) F32.zero
                                   (F32.of_Z 2) tape_quarter))
              two_channels = Some 0%nat
  /\ fst (choose_channel (RE := Scripted.engine) two_channels (F32.of_Z 2)
                         tape_quarter)
     = Chosen 1 elastic_channel.
Proof. split; vm_compute; reflexivity. Qed.

(** With a total weight of [4] passed for one channel of weight [1] and the
    draw [3], nothing is reached and [choose_channel] throws. *)
Lemma choose_channel_throws_when_nothing_reached_witness :
  (forall k, ~ reaches (fst (Random.uniform (RE := Scripted.engine) F32.zero
                                            (F32.of_Z 4) tape_three_quarters))
                       [elastic_channel] k)
  /\ choose_channel (RE := Scripted.engine) [elastic_channel] (F32.of_Z 4)
                    tape_three_quarters
     = (Thrown {| diag_size := 1;
                  diag_weight_sum := F32.of_Z 1;
                  diag_total_weight := F32.of_Z 4;
                  diag_random_weight := F32.of_Z 3 |}
               "problem in choose_channel", []).
Proof.
  assert (H : forall k,
             ~ reaches (fst (Random.uniform (RE := Scripted.engine) F32.zero
                                            (F32.of_Z 4) tape_three_quarters))
                       [elastic_channel] k).
  { intros [|[|k]] (c & Hc & _ & Hr).
    - vm_compute in Hr. discriminate Hr.
    - discriminate Hc.
    - discriminate Hc. }
  split; [exact H|].
  exact (choose_channel_throws_when_nothing_reached (RE := Scripted.engine)
           [elastic_channel] (F32.of_Z 4) tape_three_quarters H).
Defined.

End ChooseChannelExamples.

(** ** Action: ordering *)

Section Ordering.
Import Action Examples.

(** C7 (as amended): [operator<] orders actions by their scheduled time
    alone: [lhs < rhs] exactly when the time of [lhs] is below that of
    [rhs]; two actions with the same scheduled time are not ordered either
    way; and the outcome does not depend on anything but the two times, so
    not on the total weights. *)
Theorem operator_lt_orders_by_time_only (lhs rhs : Action.t) :
  (operator_lt lhs rhs = true
   <-> SFcompare (time_of_execution_ lhs) (time_of_execution_ rhs) = Some Lt)
  /\ (SFeqb (time_of_execution_ lhs) (time_of_execution_ rhs) = true ->
      operator_lt lhs rhs = false /\ operator_lt rhs lhs = false)
  /\ (forall lhs' rhs',
        time_of_execution_ lhs' = time_of_execution_ lhs ->
        time_of_execution_ rhs' = time_of_execution_ rhs ->
        operator_lt lhs' rhs' = operator_lt lhs rhs).
Proof.
  unfold operator_lt, F32.ltb, SFltb, SFeqb.
  split; [|split].
  - destruct (SFcompare _ _) as [[]|]; split; intros H;
      try discriminate H; reflexivity.
  - rewrite (SFcompare_swap (time_of_execution_ lhs) (time_of_execution_ rhs)).
    destruct (SFcompare _ _) as [[]|]; intros H;
      try discriminate H; split; reflexivity.
  - intros lhs' rhs' -> ->. reflexivity.
Qed.

Lemma operator_lt_orders_by_time_only_witness :
  SFeqb (time_of_execution_ light_action) (time_of_execution_ heavy_action)
  = true
  /\ operator_lt light_action heavy_action = false
  /\ operator_lt heavy_action light_action = false.
Proof.
  assert (H : SFeqb (time_of_execution_ light_action)
                    (time_of_execution_ heavy_action) = true)
    by (vm_compute; reflexivity).
  split; [exact H|].
  exact (proj1 (proj2 (operator_lt_orders_by_time_only light_action
                         heavy_action)) H).
Defined.

(** C7 as stated fails: of two actions scheduled at the same time, the
    ordering the claim describes puts the one with the larger total weight
    first, and [operator<] does not. *)
Lemma operator_lt_ignores_total_weight :
  spec_before heavy_action light_action = true
  /\ operator_lt heavy_action light_action = false.
Proof. split; vm_compute; reflexivity. Qed.

Lemma SFltb_nan (x y : spec_float) :
  is_nan x = true -> SFltb x y = false /\ SFltb y x = false.
Proof.
  destruct x; intros H; try discriminate H.
  split; [reflexivity|]. destruct y as [s|s| |s m e]; reflexivity.
Qed.

(** Two floats that are unordered with a number are unordered with each
    other. *)
Lemma SFltb_unordered_trans (x y z : spec_float) :
  is_nan y = false ->
  SFltb x y = false -> SFltb y x = false ->
  SFltb y z = false -> SFltb z y = false ->
  SFltb x z = false /\ SFltb z x = false.
Proof.
  intros Hy Hxy Hyx Hyz Hzy.
  destruct (is_nan x) eqn:Hx; [apply SFltb_nan, Hx|].
  destruct (is_nan z) eqn:Hz.
  { destruct (SFltb_nan z x Hz) as [A B]. split; assumption. }
  assert (Kxy : ~ lex_lt (order_key x) (order_key y))
    by (intros K; apply (SFltb_key x y Hx Hy) in K; congruence).
  assert (Kyx : ~ lex_lt (order_key y) (order_key x))
    by (intros K; apply (SFltb_key y x Hy Hx) in K; congruence).
  assert (Kyz : ~ lex_lt (order_key y) (order_key z))
    by (intros K; apply (SFltb_key y z Hy Hz) in K; congruence).
  assert (Kzy : ~ lex_lt (order_key z) (order_key y))
    by (intros K; apply (SFltb_key z y Hz Hy) in K; congruence).
  split.
  - destruct (SFltb x z) eqn:E; [|reflexivity]. exfalso.
    apply (SFltb_key x z Hx Hz) in E. unfold lex_lt in *.
    destruct (order_key x) as [[a1 a2] a3].
    destruct (order_key y) as [[b1 b2] b3].
    destruct (order_key z) as [[c1 c2] c3]. lia.
  - destruct (SFltb z x) eqn:E; [|reflexivity]. exfalso.
    apply (SFltb_key z x Hz Hx) in E. unfold lex_lt in *.
    destruct (order_key x) as [[a1 a2] a3].
    destruct (order_key y) as [[b1 b2] b3].
    destruct (order_key z) as [[c1 c2] c3]. lia.
Qed.

(** [operator<] is irreflexive, asymmetric and transitive on all actions.
    Being unordered either way is transitive through every action whose
    scheduled time is a number, so on actions whose times are not NaN
    [operator<] is a strict weak ordering, which is what [std::sort]
    requires of its comparison.  It is not one on all actions: an action
    whose time is NaN is unordered with every action, also with two that
    are ordered with each other. *)
Theorem operator_lt_strict_order :
  (forall a, operator_lt a a = false)
  /\ (forall a b, operator_lt a b = true -> operator_lt b a = false)
  /\ (forall a b c, operator_lt a b = true -> operator_lt b c = true ->
                    operator_lt a c = true)
  /\ (forall a b c,
        is_nan (time_of_execution_ b) = false ->
        operator_lt a b = false -> operator_lt b a = false ->
        operator_lt b c = false -> operator_lt c b = false ->
        operator_lt a c = false /\ operator_lt c a = false)
  /\ (forall a b,
        is_nan (time_of_execution_ b) = true ->
        operator_lt a b = false /\ operator_lt b a = false)
  /\ (operator_lt light_action MoreExamples.nan_action = false
      /\ operator_lt MoreExamples.nan_action light_action = false
      /\ operator_lt MoreExamples.nan_action later_action = false
      /\ operator_lt later_action MoreExamples.nan_action = false
      /\ operator_lt light_action later_action = true).
Proof.
  unfold operator_lt, F32.ltb.
  split; [|split; [|split; [|split; [|split]]]].
  - intros a. apply SFltb_irrefl.
  - intros a b. apply SFltb_asym.
  - intros a b c. apply SFltb_trans.
  - intros a b c. apply SFltb_unordered_trans.
  - intros a b H. destruct (SFltb_nan _ (time_of_execution_ a) H) as [A B].
    split; assumption.
  - repeat split; vm_compute; reflexivity.
Qed.

(** Three actions scheduled at the same time: the first and the third are
    unordered because each is unordered with the second. *)
Lemma operator_lt_strict_order_witness :
  is_nan (time_of_execution_ heavy_action) = false
  /\ operator_lt light_action heavy_action = false
  /\ operator_lt heavy_action light_action = false
  /\ operator_lt heavy_action MoreExamples.middle_action = false
  /\ operator_lt MoreExamples.middle_action heavy_action = false
  /\ operator_lt light_action MoreExamples.middle_action = false
  /\ operator_lt MoreExamples.middle_action light_action = false.
Proof.
  assert (H0 : is_nan (time_of_execution_ heavy_action) = false)
    by reflexivity.
  assert (H1 : operator_lt light_action heavy_action = false)
    by (vm_compute; reflexivity).
  assert (H2 : operator_lt heavy_action light_action = false)
    by (vm_compute; reflexivity).
  assert (H3 : operator_lt heavy_action MoreExamples.middle_action = false)
    by (vm_compute; reflexivity).
  assert (H4 : operator_lt MoreExamples.middle_action heavy_action = false)
    by (vm_compute; reflexivity).
  split; [exact H0|]. split; [exact H1|]. split; [exact H2|].
  split; [exact H3|]. split; [exact H4|].
  exact (proj1 (proj2 (proj2 (proj2 operator_lt_strict_order)))
           light_action heavy_action MoreExamples.middle_action
           H0 H1 H2 H3 H4).
Defined.

End Ordering.

(** ** Random::expo *)

Section ExpoFacts.
Import Expo.
Context {RE : RandomEngine} {LM : LibM}.

(** The loop only ever returns a value on which its condition is false. *)
Lemma expo_loop_exit (fuel : nat) (A x1 x2 r1 r2 : F64.t) :
  forall engine x engine',
    expo_loop fuel A x1 x2 r1 r2 engine = Some (x, engine') ->
    again x x1 x2 = false.
Proof.
  induction fuel as [|fuel IH]; intros engine x engine' H; cbn [expo_loop] in H.
  - discriminate H.
  - destruct (Random.uniform_d r1 r2 engine) as [u e1].
    destruct (again (F64.div (libm_log u) A) x1 x2) eqn:Ha.
    + exact (IH _ _ _ H).
    + injection H as <- <-. exact Ha.
Qed.

Lemma again_false (x x1 x2 : F64.t) :
  again x x1 x2 = false ->
  (F64.ltb x x1 = true /\ F64.ltb x x2 = false)
  \/ (F64.ltb x x1 = false /\ F64.ltb x x2 = true).
Proof.
  unfold again, bool_to_int.
  destruct (F64.ltb x x1), (F64.ltb x x2); cbn; intros H;
    try discriminate H; auto.
Qed.

(** Below the one bound and not below the other is between the two, when
    the bounds are numbers. *)
Lemma between_of_one_below (x lo hi : F64.t) :
  is_nan lo = false ->
  F64.ltb x hi = true -> F64.ltb x lo = false ->
  F64.ltb lo hi = true /\ F64.ltb hi lo = false /\ F64.leb lo x = true.
Proof.
  unfold F64.ltb, F64.leb. intros Hlo Hhi Hnot.
  destruct (SFltb_not_nan _ _ Hhi) as [Hx Hh].
  pose proof (proj1 (SFltb_key x hi Hx Hh) Hhi) as K1.
  assert (K2 : ~ lex_lt (order_key x) (order_key lo)).
  { intros K. apply (SFltb_key x lo Hx Hlo) in K. congruence. }
  assert (K3 : lex_lt (order_key lo) (order_key hi)).
  { unfold lex_lt in *. destruct (order_key x) as [[a b] c].
    destruct (order_key lo) as [[a' b'] c'].
    destruct (order_key hi) as [[a'' b''] c'']. lia. }
  split; [|split].
  - apply (SFltb_key lo hi Hlo Hh). exact K3.
  - apply SFltb_asym. apply (SFltb_key lo hi Hlo Hh). exact K3.
  - apply (SFleb_key lo x Hlo Hx). exact K2.
Qed.

(** C9: whenever [expo] returns a value [x], exactly one of [x < x1] and
    [x < x2] holds; and when the two bounds are numbers (not NaN), this
    places [x] between them whichever is the larger:
    [min(x1, x2) <= x] and [x < max(x1, x2)]. *)
Theorem expo_between (fuel : nat) (A x1 x2 : F64.t) (engine : Engine)
        (x : F64.t) (engine' : Engine) :
  expo fuel A x1 x2 engine = Some (x, engine') ->
  ((F64.ltb x x1 = true /\ F64.ltb x x2 = false)
   \/ (F64.ltb x x1 = false /\ F64.ltb x x2 = true))
  /\ (is_nan x1 = false -> is_nan x2 = false ->
      F64.leb (fmin x1 x2) x = true /\ F64.ltb x (fmax x1 x2) = true).
Proof.
  unfold expo. intros H. apply expo_loop_exit in H. apply again_false in H.
  split; [exact H|]. intros N1 N2. unfold fmin, fmax.
  destruct H as [[Ha Hb]|[Ha Hb]].
  - destruct (between_of_one_below x x2 x1 N2 Ha Hb) as (L1 & L2 & L3).
    rewrite L1, L2. split; assumption.
  - destruct (between_of_one_below x x1 x2 N1 Hb Ha) as (L1 & L2 & L3).
    rewrite L1, L2. split; assumption.
Qed.

End ExpoFacts.

Section ExpoExamples.
Import Expo Examples.

(** [expo(1, 0, 1)] on the scripted engine returns at the first draw. *)
Lemma expo_between_witness :
  exists x engine',
    expo (RE := Scripted.engine) (LM := Scripted.libm) 3
         (F64.of_Z 1) (F64.of_Z 0) (F64.of_Z 1) tape_half = Some (x, engine')
    /\ F64.leb (fmin (F64.of_Z 0) (F64.of_Z 1)) x = true
    /\ F64.ltb x (fmax (F64.of_Z 0) (F64.of_Z 1)) = true.
Proof.
  destruct (expo (RE := Scripted.engine) (LM := Scripted.libm) 3
                 (F64.of_Z 1) (F64.of_Z 0) (F64.of_Z 1) tape_half)
    as [[x e']|] eqn:E.
  - exists x, e'. split; [reflexivity|].
    exact (proj2 (expo_between (RE := Scripted.engine) (LM := Scripted.libm)
                    3 (F64.of_Z 1) (F64.of_Z 0) (F64.of_Z 1) tape_half x e' E)
                 eq_refl eq_refl).
  - vm_compute in E. discriminate E.
Defined.

End ExpoExamples.

(** ** 32-bit arithmetic *)

Section IntFacts.

Lemma wrap_in_range (z : Z) : Int.in_range (Int.wrap z).
Proof.
  unfold Int.in_range, Int.wrap, Int.min_value, Int.max_value.
  pose proof (Z.mod_pos_bound (z + 2 ^ 31) (2 ^ 32) ltac:(lia)). lia.
Qed.

Lemma wrap_id (z : Z) : Int.in_range z -> Int.wrap z = z.
Proof.
  unfold Int.in_range, Int.wrap, Int.min_value, Int.max_value. intros H.
  rewrite Z.mod_small; lia.
Qed.

Lemma wrap_rep (z : Z) : exists k, Int.wrap z = z + k * 2 ^ 32.
Proof.
  unfold Int.wrap. exists (- ((z + 2 ^ 31) / 2 ^ 32)).
  rewrite Z.mod_eq by lia. lia.
Qed.

Lemma wrap_eqm (a b k : Z) : a = b + k * 2 ^ 32 -> Int.wrap a = Int.wrap b.
Proof.
  intros ->. unfold Int.wrap.
  replace (b + k * 2 ^ 32 + 2 ^ 31) with (b + 2 ^ 31 + k * 2 ^ 32) by lia.
  rewrite Z_mod_plus_full. reflexivity.
Qed.

End IntFacts.

(** ** BesselSampler *)

Section BesselFacts.
Import Bessel.
Context {RE : RandomEngine}.
Variable m_switch_method_ : F64.t.
Variable negligible_probability_ : F64.t.

(** What the constructor stores of the fixed difference. *)
Lemma make_fields (fuel : nat) (m1 m2 : F64.t) (d : Z) (bs : BesselSampler) :
  make m_switch_method_ negligible_probability_ fuel m1 m2 d = Some bs ->
  N_ bs = Int.abs d /\ N_is_positive_ bs = (0 <=? d)
  /\ F64.geb m1 F64.zero = true /\ F64.geb m2 F64.zero = true.
Proof.
  unfold make. intros H.
  destruct (F64.geb m1 F64.zero); [|discriminate H].
  destruct (F64.geb m2 F64.zero); [|discriminate H].
  cbn [negb] in H.
  destruct (F64.geb _ m_switch_method_).
  - destruct (r_ (Int.abs d) _); [|discriminate H].
    destruct (r_ (Int.add (Int.abs d) 1) _); [|discriminate H].
    injection H as <-. cbn. auto.
  - destruct (tabulate _ _ _ _ _ _ _); [|discriminate H].
    injection H as <-. cbn. auto.
Qed.

Lemma pair_difference (d n : Z) :
  Int.in_range d ->
  (0 <= d -> Int.sub (Int.add n (Int.abs d)) n = d)
  /\ (d < 0 -> Int.sub n (Int.add n (Int.abs d)) = d).
Proof.
  intros Hd. unfold Int.sub, Int.add, Int.abs. split; intros Hs.
  - transitivity (Int.wrap d); [|apply wrap_id, Hd].
    destruct (wrap_rep (Z.abs d)) as [k1 E1].
    destruct (wrap_rep (n + Int.wrap (Z.abs d))) as [k2 E2].
    apply (wrap_eqm _ _ (k1 + k2)). rewrite E2, E1. lia.
  - transitivity (Int.wrap d); [|apply wrap_id, Hd].
    destruct (wrap_rep (Z.abs d)) as [k1 E1].
    destruct (wrap_rep (n + Int.wrap (Z.abs d))) as [k2 E2].
    apply (wrap_eqm _ _ (- k1 - k2)). rewrite E2, E1. lia.
Qed.

(** C4: for every sampler the constructor builds from two non-negative
    means and a fixed difference [d], the pair [sample] returns satisfies
    [first - second = d] in [int] arithmetic, on the Gaussian branch and on
    the direct branch alike; the difference is [d] as an exact integer
    whenever it fits an [int]. *)
Theorem sample_difference_is_fixed
        (fuel : nat) (poisson_mean1 poisson_mean2 : F64.t)
        (fixed_difference : Z) (bs : BesselSampler) (engine : Engine) :
  Int.in_range fixed_difference ->
  make m_switch_method_ negligible_probability_ fuel
       poisson_mean1 poisson_mean2 fixed_difference = Some bs ->
  Int.sub (fst (fst (sample m_switch_method_ bs engine)))
          (snd (fst (sample m_switch_method_ bs engine)))
  = fixed_difference
  /\ (Int.in_range (fst (fst (sample m_switch_method_ bs engine))
                    - snd (fst (sample m_switch_method_ bs engine))) ->
      fst (fst (sample m_switch_method_ bs engine))
      - snd (fst (sample m_switch_method_ bs engine))
      = fixed_difference).
Proof.
  intros Hd Hmake.
  destruct (make_fields _ _ _ _ _ Hmake) as (HN & HP & _ & _).
  assert (G : Int.sub (fst (fst (sample m_switch_method_ bs engine)))
                      (snd (fst (sample m_switch_method_ bs engine)))
              = fixed_difference).
  { unfold sample.
    destruct (if F64.geb (m_ bs) m_switch_method_
              then let '(x, engine0) :=
                     Random.normal (mu_ bs) (sigma_ bs) engine in
                   (round_to_int x, engine0)
              else discrete_distribution (dist_ bs) engine)
      as [N_smaller e1].
    rewrite HN, HP.
    destruct (0 <=? fixed_difference) eqn:Hs; cbn [fst snd].
    - apply (pair_difference fixed_difference N_smaller Hd). lia.
    - apply (pair_difference fixed_difference N_smaller Hd). lia. }
  split; [exact G|].
  intros Hr. unfold Int.sub in G. rewrite (wrap_id _ Hr) in G. exact G.
Qed.

End BesselFacts.

Section BesselExamples.
Import Bessel Examples.

(** The direct branch: means [1] and [1], difference [3]. *)
Lemma sample_difference_is_fixed_witness :
  exists bs,
    make m_switch_method negligible_probability 100
         (F64.of_Z 1) (F64.of_Z 1) 3 = Some bs
    /\ F64.geb (m_ bs) m_switch_method = false
    /\ fst (sample (RE := Scripted.engine) m_switch_method bs
                   tape_three_quarters) = (3, 0)
    /\ Int.sub (fst (fst (sample (RE := Scripted.engine) m_switch_method bs
                                 tape_three_quarters)))
               (snd (fst (sample (RE := Scripted.engine) m_switch_method bs
                                 tape_three_quarters)))
       = 3.
Proof.
  destruct (make m_switch_method negligible_probability 100
                 (F64.of_Z 1) (F64.of_Z 1) 3) as [bs|] eqn:E.
  - exists bs. split; [reflexivity|].
    assert (R : Int.in_range 3) by (unfold Int.in_range; cbv; split; discriminate).
    split; [|split].
    + vm_compute in E. injection E as <-. vm_compute. reflexivity.
    + vm_compute in E. injection E as <-. vm_compute. reflexivity.
    + exact (proj1 (sample_difference_is_fixed (RE := Scripted.engine)
                      m_switch_method negligible_probability 100
                      (F64.of_Z 1) (F64.of_Z 1) 3 bs tape_three_quarters R E)).
  - vm_compute in E. discriminate E.
Defined.

(** The Gaussian branch: means [100] and [100], difference [-2]. *)
Example sample_gaussian_branch :
  exists bs,
    make m_switch_method negligible_probability 100
         (F64.of_Z 100) (F64.of_Z 100) (-2) = Some bs
    /\ F64.geb (m_ bs) m_switch_method = true
    /\ fst (sample (RE := Scripted.engine) m_switch_method bs
                   tape_three_quarters) = (106, 108).
Proof.
  eexists. split; [vm_compute; reflexivity|].
  split; vm_compute; reflexivity.
Qed.

End BesselExamples.

(** ** string_excitation *)

Section StringExcitationFacts.
Import Pythia.
Context {RE : RandomEngine}.

Lemma string_excitation_without_pythia
      (pythia_next : F64.t -> Z -> Z -> F64.t -> list EventEntry)
      (particle_of_type : Z -> ParticleData)
      (abs_of_sum : FourVector -> FourVector -> F64.t)
      (sort_by_z : ParticleList -> ParticleList)
      (incoming_particles_ : ParticleList) (formation_time_ : F64.t)
      (engine : Engine) :
  string_excitation false pythia_next particle_of_type abs_of_sum sort_by_z
                    incoming_particles_ formation_time_ engine
  = (Threw "Pythia 8 not available for string excitation", engine).
Proof. reflexivity. Qed.

(** C5 (as amended): in a build without Pythia every call of
    [string_excitation] throws [std::runtime_error] with the message
    "Pythia 8 not available for string excitation", whatever its arguments:
    in any run of calls each one fails in this way, none returns a particle
    list, and nothing is drawn from the engine. *)
Theorem string_excitation_throws_without_pythia
        (pythia_next : F64.t -> Z -> Z -> F64.t -> list EventEntry)
        (particle_of_type : Z -> ParticleData)
        (abs_of_sum : FourVector -> FourVector -> F64.t)
        (sort_by_z : ParticleList -> ParticleList)
        (calls : list (ParticleList * F64.t)) (engine : Engine) :
  string_excitations false pythia_next particle_of_type abs_of_sum sort_by_z
                     calls engine
  = (map (fun _ => Threw "Pythia 8 not available for string excitation")
         calls,
     engine).
Proof.
  induction calls as [|[incoming ft] rest IH]; cbn [string_excitations map].
  - reflexivity.
  - rewrite string_excitation_without_pythia, IH. reflexivity.
Qed.

End StringExcitationFacts.

Section StringExcitationExamples.
Import Pythia Examples.

(** C5 as stated fails: without Pythia the failure is a failure of the
    call.  Two calls in a row, on two protons, both throw. *)
Lemma string_excitation_fails_at_each_call :
  fst (string_excitations (RE := Scripted.engine) false
         no_event any_particle no_abs no_sort
         [([proton; proton], F64.of_Z 1); ([proton; proton], F64.of_Z 1)]
         tape_half)
  = [Threw "Pythia 8 not available for string excitation";
     Threw "Pythia 8 not available for string excitation"].
Proof. reflexivity. Qed.

End StringExcitationExamples.

(** ** Binary output *)

Section BinaryOutputFacts.
Import BinaryOutput.

Lemma with_file_same (o : BinaryOutputCollisions) : with_file o (file_ o) = o.
Proof. destruct o. reflexivity. Qed.

Lemma fwrite_fwrite (a b : list datum) (f : File) :
  fwrite b (fwrite a f) = fwrite (a ++ b) f.
Proof. unfold fwrite. cbn. rewrite app_assoc. reflexivity. Qed.

Lemma fwrite_nil (f : File) : fwrite [] f = f.
Proof. destruct f. unfold fwrite. cbn. rewrite app_nil_r. reflexivity. Qed.

(** C10: [at_eventstart] appends the block of the full particle set when
    [print_start_end_] is set and writes nothing otherwise; [at_eventend]
    appends the same block under the same condition, and in either case
    then writes the event-end record (['f'], the event number, the impact
    parameter) and flushes, so that everything written is on disk.  The
    block is the tag ['p'], the number of particles, and for every particle
    of the set, in order, its line: position, mass, momentum, PDG code, id
    and charge, followed in the extended format by the collision count,
    formation time, scaling factor, process id and type of origin, time of
    the last collision and the two mother codes. *)
Theorem event_start_end_blocks
        (o : BinaryOutputCollisions) (particles : ParticleList)
        (event_number : Z) (impact_parameter : F64.t) :
  let line := fun p : ParticleData =>
    [F64v (x0 (position p)); F64v (x1 (position p));
     F64v (x2 (position p)); F64v (x3 (position p));
     F64v (effective_mass p);
     F64v (x0 (momentum p)); F64v (x1 (momentum p));
     F64v (x2 (momentum p)); F64v (x3 (momentum p));
     I32 (pdgcode p); I32 (id p); I32 (charge p)]
    ++ (if extended_ o
        then [I32 (collisions_per_particle (get_history p));
              F64v (formation_time p);
              F64v (xsec_scaling_factor p);
              U32 (id_process (get_history p));
              U32 (ProcessType_code (process_type (get_history p)));
              F64v (time_last_collision (get_history p));
              I32 (p1 (get_history p));
              I32 (p2 (get_history p))]
        else []) in
  let block :=
    if print_start_end_ o
    then Char "p"%char :: U32 (Z.of_nat (List.length particles))
         :: flat_map line particles
    else [] in
  on_disk (file_ (at_eventstart o particles event_number))
  = on_disk (file_ o)
  /\ buffered (file_ (at_eventstart o particles event_number))
     = buffered (file_ o) ++ block
  /\ extended_ (at_eventstart o particles event_number) = extended_ o
  /\ print_start_end_ (at_eventstart o particles event_number)
     = print_start_end_ o
  /\ on_disk (file_ (at_eventend o particles event_number impact_parameter))
     = on_disk (file_ o) ++ buffered (file_ o) ++ block
       ++ [Char "f"%char; I32 event_number; F64v impact_parameter]
  /\ buffered (file_ (at_eventend o particles event_number impact_parameter))
     = []
  /\ extended_ (at_eventend o particles event_number impact_parameter)
     = extended_ o
  /\ print_start_end_ (at_eventend o particles event_number impact_parameter)
     = print_start_end_ o.
Proof.
  cbv zeta.
  assert (L : forall ext l,
            write_particles ext l
            = flat_map (fun p : ParticleData =>
                [F64v (x0 (position p)); F64v (x1 (position p));
                 F64v (x2 (position p)); F64v (x3 (position p));
                 F64v (effective_mass p);
                 F64v (x0 (momentum p)); F64v (x1 (momentum p));
                 F64v (x2 (momentum p)); F64v (x3 (momentum p));
                 I32 (pdgcode p); I32 (id p); I32 (charge p)]
                ++ (if ext
                    then [I32 (collisions_per_particle (get_history p));
                          F64v (formation_time p);
                          F64v (xsec_scaling_factor p);
                          U32 (id_process (get_history p));
                          U32 (ProcessType_code
                                 (process_type (get_history p)));
                          F64v (time_last_collision (get_history p));
                          I32 (p1 (get_history p));
                          I32 (p2 (get_history p))]
                    else [])) l).
  { intros ext l. unfold write_particles.
    induction l as [|p l IH]; cbn [flat_map]; [reflexivity|].
    rewrite IH. reflexivity. }
  unfold at_eventstart, at_eventend, write_size.
  destruct o as [[disk buf] ext pr]. cbn [print_start_end_ extended_ file_].
  destruct pr; unfold with_file, fflush, fwrite;
    cbn [print_start_end_ extended_ file_ on_disk buffered];
    rewrite ?L; rewrite <- ?app_assoc; cbn [app]; rewrite ?app_nil_r;
    repeat split; reflexivity.
Qed.





End BinaryOutputFacts.

Section BinaryOutputExamples.
Import BinaryOutput Examples.



(** An event end without the particle blocks: only the event-end record is
    written, and it is on disk. *)
Example event_end_plain :
  file_ (at_eventend plain_output [proton] 7 F64.zero)
  = {| on_disk := [Char "f"%char; I32 7; F64v F64.zero]; buffered := [] |}.
Proof. reflexivity. Qed.

End BinaryOutputExamples.

(** * Further properties *)

(** ** The channel list as a function of the calls *)

Section ChannelListFacts.
Import Action.

Lemma do_calls_list (rs : F32.t) (cs : list call) :
  forall st,
    fst (do_calls rs cs st)
    = fst st
      ++ flat_map (fun c => match c with
                            | AddProcess p =>
                                if F32.gtb (weight p) rs then [p] else []
                            | AddProcesses pv => pv
                            end) cs.
Proof.
  unfold do_calls. induction cs as [|c cs IH]; intros [subs tw];
    cbn [fold_left flat_map fst].
  - rewrite app_nil_r. reflexivity.
  - rewrite IH. destruct c as [p|pv]; cbn [do_call].
    + unfold add_process. destruct (F32.gtb (weight p) rs); cbn [fst].
      * rewrite <- app_assoc. reflexivity.
      * reflexivity.
    + rewrite add_processes_keeps_all. cbn [fst].
      rewrite <- app_assoc. reflexivity.
Qed.

(** The channel list of an action is, in the order of the calls, every
    channel given to [add_processes] and every channel given to
    [add_process] whose weight is above the threshold: insertion never
    reorders, duplicates or loses any other channel. *)
Theorem channel_list_follows_calls (rs : F32.t) (cs : list call) :
  fst (do_calls rs cs empty)
  = flat_map (fun c => match c with
                       | AddProcess p =>
                           if F32.gtb (weight p) rs then [p] else []
                       | AddProcesses pv => pv
                       end) cs.
Proof. rewrite do_calls_list. reflexivity. Qed.

(** On channels whose weights are all above the threshold, one
    [add_processes] call and one [add_process] call per channel leave the
    same channel list and the same total weight, from any state. *)
Theorem add_processes_is_repeated_add_process
        (rs : F32.t) (pv : list Branch) (st : Channels) :
  Forall (fun b => F32.gtb (weight b) rs = true) pv ->
  do_calls rs (map AddProcess pv) st = add_processes pv st.
Proof.
  intros H. revert st. unfold do_calls.
  induction H as [|p pv Hp Hpv IH]; intros [subs tw]; cbn [map fold_left].
  - unfold add_processes. destruct subs; [reflexivity|].
    rewrite app_nil_r. reflexivity.
  - cbn [do_call]. unfold add_process. rewrite Hp. rewrite IH.
    unfold add_processes. destruct subs as [|s subs]; cbn [app fold_left].
    + reflexivity.
    + rewrite <- app_assoc. reflexivity.
Qed.

End ChannelListFacts.

Section ChannelListExamples.
Import Action Examples MoreExamples.

Lemma add_processes_is_repeated_add_process_witness :
  Forall (fun b => F32.gtb (weight b) really_small = true)
         [elastic_channel; small_channel]
  /\ do_calls really_small
              (map AddProcess [elastic_channel; small_channel]) empty
     = add_processes [elastic_channel; small_channel] empty.
Proof.
  assert (H : Forall (fun b => F32.gtb (weight b) really_small = true)
                     [elastic_channel; small_channel]).
  { repeat constructor. }
  split; [exact H|].
  exact (add_processes_is_repeated_add_process really_small
           [elastic_channel; small_channel] empty H).
Defined.

End ChannelListExamples.

(** ** choose_channel on the channels of an action *)

Section ChooseFacts.
Import Action.

(** The weight accumulated at the last channel the loop looks at is the
    weight accumulated over the whole list. *)
Lemma last_looked_at (l : list Branch) :
  existsb (fun b => negb (skipped b)) l = true ->
  forall ws,
  exists j c, nth_error l j = Some c /\ skipped c = false
              /\ fold_left accumulate (firstn (S j) l) ws
                 = fold_left accumulate l ws.
Proof.
  induction l as [|x l IH] using rev_ind; intros H ws.
  - discriminate H.
  - rewrite existsb_app in H. cbn [existsb] in H.
    destruct (skipped x) eqn:Hx.
    + cbn in H. rewrite orb_false_r in H.
      destruct (IH H ws) as (j & c & Hn & Hc & Hf).
      assert (Hj : (j < List.length l)%nat)
        by (apply nth_error_Some; congruence).
      exists j, c. split; [|split].
      * rewrite nth_error_app1 by exact Hj. exact Hn.
      * exact Hc.
      * rewrite firstn_app.
        replace (S j - List.length l)%nat with 0%nat by lia.
        change (firstn 0 [x]) with (@nil Branch).
        rewrite app_nil_r, Hf, fold_left_app.
        cbn [fold_left]. rewrite (accumulate_skipped _ _ Hx). reflexivity.
    + exists (List.length l), x. split; [|split].
      * rewrite nth_error_app2 by lia. rewrite Nat.sub_diag. reflexivity.
      * exact Hx.
      * rewrite firstn_all2; [reflexivity|]. rewrite length_app. cbn. lia.
Qed.

Lemma accumulated_all_no_skip (l : list Branch) :
  forallb (fun b => negb (skipped b)) l = true ->
  forall ws,
    fold_left accumulate l ws
    = fold_left (fun tw proc => F32.add tw (weight proc)) l ws.
Proof.
  induction l as [|x l IH]; intros H ws; cbn [fold_left].
  - reflexivity.
  - cbn [forallb] in H. apply andb_true_iff in H. destruct H as [Hx Hl].
    apply negb_true_iff in Hx.
    rewrite (accumulate_not_skipped _ _ Hx). apply IH, Hl.
Qed.

Context {RE : RandomEngine}.

(** A draw at or below the weight accumulated over the whole list selects
    a channel, as soon as the loop looks at one channel at least. *)
Lemma choose_channel_within_accumulated
      (subprocesses : list Branch) (total_weight : F32.t) (engine : Engine) :
  existsb (fun b => negb (skipped b)) subprocesses = true ->
  F32.leb (fst (Random.uniform F32.zero total_weight engine))
          (accumulated_all subprocesses) = true ->
  exists i b,
    choose_channel subprocesses total_weight engine
    = (Chosen i b, snd (Random.uniform F32.zero total_weight engine)).
Proof.
  unfold choose_channel.
  destruct (Random.uniform F32.zero total_weight engine) as [r e'].
  cbn [fst snd]. intros Hex Hle.
  destruct (walk r subprocesses 0 F32.zero) as [[i b]|s] eqn:Hw.
  - exists i, b. reflexivity.
  - exfalso. destruct (walk_inr _ _ _ _ _ Hw) as [_ Hf].
    destruct (last_looked_at subprocesses Hex F32.zero)
      as (j & c & Hn & Hc & Hacc).
    specialize (Hf j c Hn Hc). rewrite Hacc in Hf.
    unfold accumulated_all in Hle. congruence.
Qed.

(** The branch marked "should never get here" is not reached on an action
    kept by [add_process] and [add_processes]: when its channel list is not
    empty, every channel has a final-state particle or is a string, and the
    draw is at or below the total weight, [choose_channel] returns a
    channel. *)
Theorem choose_channel_selects_within_total
        (rs : F32.t) (cs : list call) (engine : Engine) :
  fst (do_calls rs cs empty) <> [] ->
  forallb (fun b => negb (skipped b)) (fst (do_calls rs cs empty)) = true ->
  F32.leb (fst (Random.uniform F32.zero (snd (do_calls rs cs empty)) engine))
          (snd (do_calls rs cs empty)) = true ->
  exists i b,
    choose_channel (fst (do_calls rs cs empty)) (snd (do_calls rs cs empty))
                   engine
    = (Chosen i b,
       snd (Random.uniform F32.zero (snd (do_calls rs cs empty)) engine)).
Proof.
  intros Hne Hall Hle.
  apply choose_channel_within_accumulated.
  - destruct (fst (do_calls rs cs empty)) as [|x l]; [congruence|].
    cbn [forallb existsb] in *. apply andb_true_iff in Hall.
    destruct Hall as [-> _]. reflexivity.
  - unfold accumulated_all. rewrite (accumulated_all_no_skip _ Hall).
    fold (sum_weights (fst (do_calls rs cs empty))).
    rewrite <- (do_calls_total rs cs empty eq_refl). exact Hle.
Qed.

(** What [choose_channel] returns is a channel of the list, at the index it
    reports, and never one its guard passes over: the channel has at least
    one final-state particle or is a string. *)
Theorem choose_channel_returns_listed_channel
        (subprocesses : list Branch) (total_weight : F32.t) (engine : Engine)
        (i : nat) (b : Branch) (engine' : Engine) :
  choose_channel subprocesses total_weight engine = (Chosen i b, engine') ->
  nth_error subprocesses i = Some b
  /\ (i < List.length subprocesses)%nat
  /\ ((1 <= particle_number b)%nat \/ get_type b = PT_String).
Proof.
  unfold choose_channel.
  destruct (Random.uniform F32.zero total_weight engine) as [r e'].
  destruct (walk r subprocesses 0 F32.zero) as [[k c]|s] eqn:Hw;
    intros H; [|discriminate H].
  injection H as -> -> _.
  destruct (walk_inl _ _ _ _ _ _ Hw) as (j & Hj & Hn & Hs & _).
  cbn in Hj. subst j. split; [exact Hn|]. split.
  - apply nth_error_Some. congruence.
  - unfold skipped in Hs. apply andb_false_iff in Hs.
    destruct Hs as [Hs|Hs].
    + left. apply Nat.ltb_ge in Hs. exact Hs.
    + right. apply negb_false_iff in Hs.
      destruct (get_type b); cbn in Hs; try discriminate Hs. reflexivity.
Qed.

End ChooseFacts.

Section ChooseExamples.
Import Action Examples MoreExamples.

Lemma choose_channel_selects_within_total_witness :
  exists i b,
    choose_channel (RE := Scripted.engine)
      (fst (do_calls really_small
                     [AddProcess elastic_channel; AddProcesses [small_channel]]
                     empty))
      (snd (do_calls really_small
                     [AddProcess elastic_channel; AddProcesses [small_channel]]
                     empty))
      tape_three_quarters
    = (Chosen i b, []).
Proof.
  apply (choose_channel_selects_within_total (RE := Scripted.engine)
           really_small
           [AddProcess elastic_channel; AddProcesses [small_channel]]
           tape_three_quarters).
  - vm_compute. discriminate.
  - vm_compute. reflexivity.
  - vm_compute. reflexivity.
Defined.

Lemma choose_channel_returns_listed_channel_witness :
  nth_error two_channels 1 = Some elastic_channel
  /\ (1 < List.length two_channels)%nat
  /\ ((1 <= particle_number elastic_channel)%nat
      \/ get_type elastic_channel = PT_String).
Proof.
  apply (choose_channel_returns_listed_channel (RE := Scripted.engine)
           two_channels (F32.of_Z 2) tape_quarter 1 elastic_channel []).
  vm_compute. reflexivity.
Defined.

End ChooseExamples.

(** ** Lists of actions *)

Section ActionListFacts.
Import ActionList.

Lemma operator_plus_eq_app (lhs rhs : list Action.t) :
  operator_plus_eq lhs rhs = lhs ++ rhs.
Proof. unfold operator_plus_eq. destruct lhs; reflexivity. Qed.

(** Collecting the action lists of several finders with [+=], one after
    the other, gives their concatenation: every action is kept, in the
    order of the finders and in each finder's own order, whether or not
    some of the lists are empty. *)
Theorem operator_plus_eq_collects (lists : list (list Action.t)) :
  forall acc, fold_left operator_plus_eq lists acc = acc ++ List.concat lists.
Proof.
  induction lists as [|l lists IH]; intros acc; cbn [fold_left List.concat].
  - rewrite app_nil_r. reflexivity.
  - rewrite IH, operator_plus_eq_app, app_assoc. reflexivity.
Qed.

End ActionListFacts.

(** ** Random::expo with equal bounds *)

Section ExpoEqualBounds.
Import Expo.
Context {RE : RandomEngine} {LM : LibM}.

Lemma again_equal_bounds (x b : F64.t) : again x b b = true.
Proof. unfold again, bool_to_int. destruct (F64.ltb x b); reflexivity. Qed.

(** With two equal bounds no value is below exactly one of them: the loop
    of [expo] never exits, whatever the engine draws.  However many draws
    it is given, [expo(A, b, b)] returns nothing. *)
Theorem expo_equal_bounds_never_returns
        (fuel : nat) (A b : F64.t) (engine : Engine) :
  expo fuel A b b engine = None.
Proof.
  unfold expo.
  generalize (if F64.gtb (F64.mul A b) (libm_log numeric_limits_min)
              then libm_exp (F64.mul A b) else F64.zero).
  intros r. revert engine.
  induction fuel as [|fuel IH]; intros engine; cbn [expo_loop].
  - reflexivity.
  - destruct (Random.uniform_d r r engine) as [u e1].
    rewrite again_equal_bounds. apply IH.
Qed.

End ExpoEqualBounds.

(** ** BesselSampler: the table of the direct method *)

Section TabulateFacts.
Import Bessel.
Variable m_switch_method_ : F64.t.
Variable negligible_probability_ : F64.t.



End TabulateFacts.

Section TabulateExamples.
Import Bessel Examples.


End TabulateExamples.

(** ** pythia.cc: sortfunc and the hadrons of a string excitation *)

Section PythiaFacts.
Import Pythia.

(** [sortfunc] compares the longitudinal momenta of the first particles of
    its two arguments, and there it is a strict order: irreflexive,
    asymmetric and transitive.  On an empty list it reaches the end of the
    function without a [return]. *)
Theorem sortfunc_strict_on_nonempty
        (d1 d2 d3 : ParticleData) (l1 l2 l3 : ParticleList) :
  sortfunc (d1 :: l1) (d1 :: l1) = Some false
  /\ (sortfunc (d1 :: l1) (d2 :: l2) = Some true ->
      sortfunc (d2 :: l2) (d1 :: l1) = Some false)
  /\ (sortfunc (d1 :: l1) (d2 :: l2) = Some true ->
      sortfunc (d2 :: l2) (d3 :: l3) = Some true ->
      sortfunc (d1 :: l1) (d3 :: l3) = Some true)
  /\ sortfunc [] (d1 :: l1) = None
  /\ sortfunc (d1 :: l1) [] = None.
Proof.
  unfold sortfunc, F64.ltb. split; [|split; [|split; [|split]]].
  - rewrite SFltb_irrefl. reflexivity.
  - intros H. injection H as H. rewrite (SFltb_asym _ _ H). reflexivity.
  - intros H1 H2. injection H1 as H1. injection H2 as H2.
    rewrite (SFltb_trans _ _ _ H1 H2). reflexivity.
  - reflexivity.
  - reflexivity.
Qed.

Context {RE : RandomEngine}.

(** With Pythia, what [string_excitation] returns is one particle for
    every final hadron of the event (as many as the sort hands back), each
    with the given formation time and a cross-section scaling factor of
    zero; the call has drawn one canonical variate (Pythia's seed) from the
    engine, and it was given two incoming particles at least. *)
Theorem string_excitation_stamps_hadrons
        (pythia_next : F64.t -> Z -> Z -> F64.t -> list EventEntry)
        (particle_of_type : Z -> ParticleData)
        (abs_of_sum : FourVector -> FourVector -> F64.t)
        (sort_by_z : ParticleList -> ParticleList)
        (incoming_particles_ : ParticleList) (formation_time_ : F64.t)
        (engine : Engine) (outgoing : ParticleList) (engine' : Engine) :
  (forall l, List.length (sort_by_z l) = List.length l) ->
  string_excitation true pythia_next particle_of_type abs_of_sum sort_by_z
                    incoming_particles_ formation_time_ engine
  = (Returned outgoing, engine') ->
  Forall (fun p => formation_time p = formation_time_
                   /\ xsec_scaling_factor p = F64.zero) outgoing
  /\ (exists a b rest,
        incoming_particles_ = a :: b :: rest
        /\ List.length outgoing
           = List.length
               (filter (fun en => isFinal en && isHadron en)
                       (pythia_next (fst (Random.canonical engine))
                                    (pdgcode a) (pdgcode b)
                                    (abs_of_sum (momentum a) (momentum b)))))
  /\ engine' = snd (Random.canonical engine).
Proof.
  intros Hsort. unfold string_excitation.
  destruct (Random.canonical engine) as [seed e1]. cbn [fst snd].
  destruct incoming_particles_ as [|a [|b rest]]; intros H;
    try discriminate H.
  injection H as <- <-. split; [|split].
  - unfold stamp. apply Forall_forall. intros p Hp.
    apply in_map_iff in Hp. destruct Hp as (q & <- & _). split; reflexivity.
  - exists a, b, rest. split; [reflexivity|].
    unfold stamp, final_hadrons. rewrite length_map, Hsort, length_map.
    reflexivity.
  - reflexivity.
Qed.

End PythiaFacts.

Section PythiaExamples.
Import Pythia Examples MoreExamples.

Lemma sortfunc_strict_on_nonempty_witness :
  sortfunc [backward_proton] [proton] = Some true
  /\ sortfunc [proton] [backward_proton] = Some false.
Proof.
  assert (H : sortfunc [backward_proton] [proton] = Some true)
    by (vm_compute; reflexivity).
  split; [exact H|].
  exact (proj1 (proj2 (sortfunc_strict_on_nonempty
                         backward_proton proton proton [] [] [])) H).
Defined.

Lemma string_excitation_stamps_hadrons_witness :
  exists outgoing,
    fst (string_excitation (RE := Scripted.engine) true one_event particle_of
           no_abs no_sort [proton; proton] (F64.of_Z 1) tape_half)
    = Returned outgoing
    /\ List.length outgoing = 2%nat
    /\ Forall (fun p => formation_time p = F64.of_Z 1
                        /\ xsec_scaling_factor p = F64.zero) outgoing.
Proof.
  destruct (string_excitation (RE := Scripted.engine) true one_event
              particle_of no_abs no_sort [proton; proton] (F64.of_Z 1)
              tape_half) as [r e'] eqn:E.
  destruct r as [outgoing|what|].
  - exists outgoing. split; [reflexivity|].
    destruct (string_excitation_stamps_hadrons (RE := Scripted.engine)
                one_event particle_of no_abs no_sort [proton; proton]
                (F64.of_Z 1) tape_half outgoing e'
                (fun l => eq_refl) E) as (HF & (a & b & rest & Hin & Hlen) & _).
    split; [|exact HF].
    injection Hin as <- <- _. exact Hlen.
  - vm_compute in E. discriminate E.
  - vm_compute in E. discriminate E.
Defined.

End PythiaExamples.

(** ** The binary format: sizes, content and layout *)

Section BinaryFormatFacts.
Import BinaryOutput BinaryFormat.

Lemma bytes_app (l1 l2 : list datum) : bytes (l1 ++ l2) = bytes l1 + bytes l2.
Proof.
  unfold bytes. induction l1 as [|d l1 IH]; cbn [app fold_right].
  - reflexivity.
  - rewrite IH. lia.
Qed.

Lemma bytes_line (ext : bool) (p : ParticleData) :
  bytes (write_particledata ext p) = line_bytes ext.
Proof. destruct ext; reflexivity. Qed.

Lemma bytes_particles (ext : bool) (l : ParticleList) :
  bytes (write_particles ext l) = Z.of_nat (List.length l) * line_bytes ext.
Proof.
  unfold write_particles. induction l as [|p l IH]; cbn [flat_map List.length].
  - reflexivity.
  - rewrite bytes_app, bytes_line, IH. lia.
Qed.

(** The sizes in bytes of what the code writes: a particle line takes 84
    bytes, or 128 in the extended format; a particle block takes 5 bytes
    and one line per particle; an interaction block takes a header of 37
    bytes (the tag, two counts, three doubles, the type) and one line per
    incoming and per outgoing particle; the event-end record takes 13. *)
Theorem block_sizes (ext : bool) (particles : ParticleList)
        (action : Action) (density : F64.t)
        (event_number : Z) (impact_parameter : F64.t) (p : ParticleData) :
  bytes (write_particledata ext p) = (if ext then 128 else 84)
  /\ bytes (particles_block ext particles)
     = 5 + Z.of_nat (List.length particles) * line_bytes ext
  /\ bytes (interaction_record ext action density)
     = 37 + Z.of_nat (List.length (incoming_particles action)
                      + List.length (outgoing_particles action))
            * line_bytes ext
  /\ bytes [Char "f"%char; I32 event_number; F64v impact_parameter] = 13.
Proof.
  split; [|split; [|split]].
  - destruct ext; reflexivity.
  - unfold particles_block, write_size.
    rewrite !bytes_app, bytes_particles. cbn [bytes fold_right size_of]. lia.
  - unfold interaction_record.
    rewrite !bytes_app, !bytes_particles. cbn [bytes fold_right size_of]. lia.
  - reflexivity.
Qed.

Lemma ProcessType_code_inj (a b : ProcessType) :
  ProcessType_code a = ProcessType_code b -> a = b.
Proof. destruct a, b; cbn; intros H; try discriminate H; reflexivity. Qed.

(** The extended particle line holds every member of the particle. *)
Lemma extended_line_inj (p q : ParticleData) (l l' : list datum) :
  write_particledata true p ++ l = write_particledata true q ++ l' ->
  p = q /\ l = l'.
Proof.
  destruct p as [[a0 a1 a2 a3] m [b0 b1 b2 b3] c i ch [h1 h2 h3 h4 h5 h6] ft xs].
  destruct q as [[a0' a1' a2' a3'] m' [b0' b1' b2' b3'] c' i' ch'
                 [h1' h2' h3' h4' h5' h6'] ft' xs'].
  cbn. intros H. injection H as -> -> -> -> -> -> -> -> -> -> -> -> -> -> ->
                                 -> Ht -> -> -> ->.
  apply ProcessType_code_inj in Ht. subst. split; reflexivity.
Qed.

Lemma extended_lines_inj (l1 : ParticleList) :
  forall l2 t1 t2,
    List.length l1 = List.length l2 ->
    write_particles true l1 ++ t1 = write_particles true l2 ++ t2 ->
    l1 = l2 /\ t1 = t2.
Proof.
  unfold write_particles.
  induction l1 as [|p l1 IH]; intros [|q l2] t1 t2 Hlen H;
    try discriminate Hlen.
  - cbn in H. split; [reflexivity|exact H].
  - cbn [flat_map] in H. rewrite <- !app_assoc in H.
    apply extended_line_inj in H. destruct H as [-> H].
    injection Hlen as Hlen. destruct (IH _ _ _ Hlen H) as [-> ->].
    split; reflexivity.
Qed.

(** In the extended format the interaction block loses nothing: two
    reports that give the same block were made for the same action (the
    same incoming and outgoing particles with all their members, the same
    weights and type) and the same density. *)
Theorem extended_interaction_record_determines_action
        (action action' : Action) (density density' : F64.t) :
  interaction_record true action density
  = interaction_record true action' density' ->
  action = action' /\ density = density'.
Proof.
  destruct action as [inc out tw pw ty].
  destruct action' as [inc' out' tw' pw' ty'].
  unfold interaction_record.
  cbn [incoming_particles outgoing_particles get_total_weight
       get_partial_weight get_type app].
  intros H. injection H as Hin Hout -> -> -> Hty H.
  apply Nat2Z.inj in Hin. apply Nat2Z.inj in Hout.
  apply ProcessType_code_inj in Hty. subst ty'.
  destruct (extended_lines_inj _ _ _ _ Hin H) as [-> H'].
  rewrite <- (app_nil_r (write_particles true out)) in H'.
  rewrite <- (app_nil_r (write_particles true out')) in H'.
  destruct (extended_lines_inj _ _ _ _ Hout H') as [-> _].
  split; reflexivity.
Qed.

Lemma at_interaction_appends
      (o : BinaryOutputCollisions) (action : Action) (density : F64.t) :
  at_interaction o action density
  = BinaryOutput.with_file o
      (fwrite (interaction_record (BinaryOutput.extended_ o) action density)
              (BinaryOutput.file_ o)).
Proof.
  unfold at_interaction, interaction_record, write_size.
  rewrite !fwrite_fwrite. reflexivity.
Qed.

Lemma fold_at_interaction (interactions : list (Action * F64.t)) :
  forall o,
    fold_left (fun o i => at_interaction o (fst i) (snd i)) interactions o
    = BinaryOutput.with_file o
        (fwrite (flat_map (fun i => interaction_record
                                      (BinaryOutput.extended_ o)
                                      (fst i) (snd i))
                          interactions)
                (BinaryOutput.file_ o)).
Proof.
  induction interactions as [|[a d] l IH]; intros o;
    cbn [fold_left flat_map fst snd].
  - rewrite fwrite_nil, with_file_same. reflexivity.
  - rewrite IH.
    rewrite at_interaction_appends.
    destruct o as [f ext pse].
    unfold BinaryOutput.with_file.
    cbn [BinaryOutput.file_ BinaryOutput.extended_
         BinaryOutput.print_start_end_].
    rewrite fwrite_fwrite. reflexivity.
Qed.

(** The collisions file of one event: after the event's end, the disk
    holds what was written before, then the block of the initial particles
    if [print_start_end_] is set, then one interaction block per
    interaction in the order they were reported, then the block of the
    final particles under the same condition, then the event-end record;
    nothing is left in the buffer. *)
Theorem collisions_event_layout
        (o : BinaryOutputCollisions) (initial : ParticleList)
        (interactions : list (Action * F64.t)) (final : ParticleList)
        (event_number : Z) (impact_parameter : F64.t) :
  BinaryOutput.file_ (collisions_event o initial interactions final
                                       event_number impact_parameter)
  = {| on_disk :=
         written (BinaryOutput.file_ o)
         ++ (if BinaryOutput.print_start_end_ o
             then particles_block (BinaryOutput.extended_ o) initial else [])
         ++ flat_map (fun i => interaction_record (BinaryOutput.extended_ o)
                                                  (fst i) (snd i))
                     interactions
         ++ (if BinaryOutput.print_start_end_ o
             then particles_block (BinaryOutput.extended_ o) final else [])
         ++ [Char "f"%char; I32 event_number; F64v impact_parameter];
       buffered := [] |}.
Proof.
  unfold collisions_event. rewrite fold_at_interaction.
  unfold BinaryOutput.at_eventend, BinaryOutput.at_eventstart,
    particles_block, written, write_size.
  destruct o as [[disk buf] ext pse].
  destruct pse;
    unfold BinaryOutput.with_file, fflush, fwrite;
    cbn [BinaryOutput.print_start_end_ BinaryOutput.extended_
         BinaryOutput.file_ on_disk buffered];
    rewrite <- ?app_assoc; cbn [app]; rewrite <- ?app_assoc;
    reflexivity.
Qed.

Lemma fold_at_intermediate_time (intermediate : list ParticleList) :
  forall o,
    fold_left at_intermediate_time intermediate o
    = with_file o
        (fwrite (if only_final_ o then []
                 else flat_map (particles_block (extended_ o)) intermediate)
                (file_ o)).
Proof.
  induction intermediate as [|l ls IH]; intros [f ext fin];
    cbn [fold_left flat_map].
  - unfold with_file. cbn [file_ extended_ only_final_].
    destruct fin; rewrite fwrite_nil; reflexivity.
  - rewrite IH. unfold at_intermediate_time, with_file, particles_block,
      write_size.
    cbn [file_ extended_ only_final_].
    destruct fin; cbn [negb file_ extended_ only_final_].
    + reflexivity.
    + rewrite !fwrite_fwrite. rewrite <- ?app_assoc. reflexivity.
Qed.

(** The particles file of one event: with [only_final_] set, the event
    adds exactly one particle block, that of the final particles, followed
    by the event-end record; otherwise it adds the block of the initial
    particles, one block per intermediate output time in order, and then
    the same two.  In both cases everything is on disk after the event's
    end. *)
Theorem particles_event_layout
        (o : BinaryOutputParticles) (initial : ParticleList)
        (intermediate : list ParticleList) (final : ParticleList)
        (event_number : Z) (impact_parameter : F64.t) :
  file_ (particles_event o initial intermediate final
                         event_number impact_parameter)
  = {| on_disk :=
         written (file_ o)
         ++ (if only_final_ o then []
             else particles_block (extended_ o) initial
                  ++ flat_map (particles_block (extended_ o)) intermediate)
         ++ particles_block (extended_ o) final
         ++ [Char "f"%char; I32 event_number; F64v impact_parameter];
       buffered := [] |}.
Proof.
  unfold particles_event. rewrite fold_at_intermediate_time.
  unfold at_eventend, at_eventstart, particles_block, written, write_size.
  destruct o as [[disk buf] ext fin].
  destruct fin;
    unfold with_file, fflush, fwrite;
    cbn [negb only_final_ extended_ file_ on_disk buffered];
    rewrite <- ?app_assoc; cbn [app]; rewrite <- ?app_assoc;
    rewrite ?app_nil_r; reflexivity.
Qed.

End BinaryFormatFacts.

Section BinaryFormatExamples.
Import BinaryOutput BinaryFormat Examples MoreExamples.

Lemma extended_interaction_record_determines_action_witness :
  interaction_record true elastic_pp F64.zero
  = interaction_record true elastic_pp F64.zero
  /\ elastic_pp = elastic_pp /\ F64.zero = F64.zero.
Proof.
  split; [reflexivity|].
  exact (extended_interaction_record_determines_action
           elastic_pp elastic_pp F64.zero F64.zero eq_refl).
Defined.

(** In the default format a pion and the same pion with another history
    give the same line; in the extended format they do not. *)
Example default_line_drops_history :
  write_particledata false pion = write_particledata false (set_id_process 9 pion)
  /\ write_particledata true pion
     <> write_particledata true (set_id_process 9 pion).
Proof.
  split; [reflexivity|]. intros H.
  assert (K : write_particledata true pion ++ []
              = write_particledata true (set_id_process 9 pion) ++ [])
    by (rewrite H; reflexivity).
  apply extended_line_inj in K. destruct K as [K _].
  apply (f_equal (fun p => id_process (get_history p))) in K.
  vm_compute in K. discriminate K.
Qed.

End BinaryFormatExamples.

(** ** TimeStampCounter *)

Section TscFacts.
Import Tsc.

Lemma a_rdtscp (counter : Z) :
  0 <= counter < 2 ^ 64 -> a (rdtscp counter) = counter.
Proof.
  intros H. unfold a, rdtscp. cbn [b0 b1].
  rewrite (Z.mod_small (counter / 2 ^ 32)).
  - rewrite (Z.mul_comm (2 ^ 32)). rewrite Z.add_comm.
    symmetry. rewrite Z.mul_comm. apply Z.div_mod. lia.
  - split.
    + apply Z.div_pos; lia.
    + apply Z.div_lt_upper_bound; lia.
Qed.

(** [cycles] is the number of cycles between [start] and [stop] whenever
    that number is below [2^64], also when the processor's 64-bit counter
    wrapped around in between. *)
Theorem cycles_is_elapsed (t : TimeStampCounter) (counter elapsed : Z) :
  0 <= counter < 2 ^ 64 ->
  0 <= elapsed < 2 ^ 64 ->
  cycles (stop (start t counter) ((counter + elapsed) mod 2 ^ 64)) = elapsed.
Proof.
  intros Hc He. unfold cycles, stop, start. cbn [m_start m_end].
  rewrite (a_rdtscp counter Hc).
  rewrite a_rdtscp by (apply Z.mod_pos_bound; lia).
  rewrite Zminus_mod_idemp_l.
  replace (counter + elapsed - counter) with elapsed by lia.
  apply Z.mod_small. exact He.
Qed.

Lemma cycles_is_elapsed_witness :
  cycles (stop (start {| m_start := rdtscp 0; m_end := rdtscp 0 |}
                      (2 ^ 64 - 5))
               ((2 ^ 64 - 5 + 12) mod 2 ^ 64))
  = 12.
Proof.
  apply (cycles_is_elapsed {| m_start := rdtscp 0; m_end := rdtscp 0 |}
           (2 ^ 64 - 5) 12); lia.
Defined.

End TscFacts.
